(** * youtube2zim.youtube: extraction-and-caching pipeline

    A shallow embedding of [src/youtube2zim/youtube.py] and the properties
    the specification states about it.

    Python values are embedded as the inductive [value]; exceptions as the
    enumeration [exn]; the effects of the module (the JSON cache directory,
    the remote API, the channel-assets directory) as explicit state passing
    over the record [world], which also keeps a chronological [trace] of the
    observable effects.  The three [while True] pagination loops take a fuel
    argument; a run that exhausts it yields [OutOfFuel], which is neither a
    return nor an exception.

    What the embedding leaves out: the [logger] calls, which touch none of
    the state modelled here; the request timeout; floating-point JSON
    numbers.  A [pathlib] path is the list of its components, and a channel
    id joined to it counts as one component. *)

From Stdlib Require Import Ascii.
From stdpp Require Import gmap strings list fin_maps.

Set Warnings "-clear-no-such-hyp".

Open Scope string_scope.
Open Scope list_scope.
Open Scope nat_scope.
Open Scope stdpp_scope.

(** ** Python values *)

(** The values that flow through the module: what [json.load] produces,
    plus dictionaries keyed by arbitrary hashable values (the author map is
    keyed by [item["id"]]).  Floats never matter to the code and are left
    out. A dictionary keeps its items in insertion order, keys pairwise
    different. *)
#[warnings="-register-all"]
Inductive value : Type :=
  | VNone
  | VBool (b : bool)
  | VInt (n : Z)
  | VStr (s : string)
  | VList (l : list value)
  | VDict (d : list (value * value)).

Inductive exn : Type :=
  | KeyError
  | IndexError
  | TypeError
  | AttributeError
  | RequestException      (* transport failure raised by requests.get *)
  | HTTPError             (* raised by Response.raise_for_status *)
  | JSONDecodeError       (* raised by Response.json *)
  | NotImplementedError
  | ThumbnailNotFound     (* Exception("Thumbnail not found") *)
  | FileNotFoundError
  | NotADirectoryError
  | FileExistsError
  | SlugError.            (* whatever get_slug raises *)

Inductive outcome (A : Type) : Type :=
  | Ok (a : A)
  | Raise (e : exn)
  | OutOfFuel.
Arguments Ok {A} a.
Arguments Raise {A} e.
Arguments OutOfFuel {A}.

Definition outcome_bind {A B} (f : A → outcome B) (o : outcome A) : outcome B :=
  match o with
  | Ok a => f a
  | Raise e => Raise e
  | OutOfFuel => OutOfFuel
  end.

#[global] Instance outcome_ret : MRet outcome := λ A a, Ok a.
#[global] Instance outcome_mbind : MBind outcome := λ A B f o, outcome_bind f o.

(** [bool(v)] *)
Definition truthy (v : value) : bool :=
  match v with
  | VNone => false
  | VBool b => b
  | VInt n => negb (n =? 0)%Z
  | VStr s => negb (String.eqb s EmptyString)
  | VList l => match l with [] => false | _ => true end
  | VDict d => match d with [] => false | _ => true end
  end.

(** [v is None] *)
Definition is_None (v : value) : bool :=
  match v with
  | VNone => true
  | _ => false
  end.

(** Lists and dictionaries are unhashable. *)
Definition hashable (v : value) : bool :=
  match v with
  | VList _ | VDict _ => false
  | _ => true
  end.

(** [bool] is a subclass of [int]: [True == 1]. *)
Definition as_int (v : value) : option Z :=
  match v with
  | VBool b => Some (if b then 1 else 0)%Z
  | VInt n => Some n
  | _ => None
  end.

(** [a == b] on hashable values. *)
Definition py_eqb (a b : value) : bool :=
  match a, b with
  | VNone, VNone => true
  | VStr s, VStr t => String.eqb s t
  | _, _ =>
      match as_int a, as_int b with
      | Some x, Some y => (x =? y)%Z
      | _, _ => false
      end
  end.

Fixpoint dict_lookup (d : list (value * value)) (k : value) : option value :=
  match d with
  | [] => None
  | (k', v) :: d' => if py_eqb k' k then Some v else dict_lookup d' k
  end.

(** [d[k] = v]: an existing key keeps its place (and its key object). *)
Fixpoint dict_set (d : list (value * value)) (k v : value) : list (value * value) :=
  match d with
  | [] => [(k, v)]
  | (k', v') :: d' =>
      if py_eqb k' k then (k', v) :: d' else (k', v') :: dict_set d' k v
  end.

(** [d.update(e)] *)
Definition dict_update (d e : list (value * value)) : list (value * value) :=
  fold_left (λ acc kv, dict_set acc kv.1 kv.2) e d.

Definition chars (s : string) : list value :=
  (λ c, VStr (String c EmptyString)) <$> String.list_ascii_of_string s.

(** [l[i]] for a sequence, negative indices counting from the end. *)
Definition seq_index (l : list value) (i : Z) : outcome value :=
  let n := Z.of_nat (length l) in
  let j := (if i <? 0 then i + n else i)%Z in
  if ((0 <=? j) && (j <? n))%Z
  then match l !! Z.to_nat j with Some v => Ok v | None => Raise IndexError end
  else Raise IndexError.

(** [v[k]] *)
Definition getitem (v k : value) : outcome value :=
  match v with
  | VDict d =>
      if hashable k
      then match dict_lookup d k with Some x => Ok x | None => Raise KeyError end
      else Raise TypeError
  | VList l =>
      match as_int k with Some i => seq_index l i | None => Raise TypeError end
  | VStr s =>
      match as_int k with Some i => seq_index (chars s) i | None => Raise TypeError end
  | _ => Raise TypeError
  end.

(** [v.get(k)], with the default [None]. *)
Definition dict_get (v k : value) : outcome value :=
  match v with
  | VDict d =>
      if hashable k
      then Ok (default VNone (dict_lookup d k))
      else Raise TypeError
  | _ => Raise AttributeError
  end.

(** [k in v.keys()] *)
Definition in_keys (k v : value) : outcome bool :=
  match v with
  | VDict d =>
      if hashable k
      then Ok (bool_decide (is_Some (dict_lookup d k)))
      else Raise TypeError
  | _ => Raise AttributeError
  end.

(** [iter(v)]: what a [for] loop or [list +=] walks over. *)
Definition py_iter (v : value) : outcome (list value) :=
  match v with
  | VList l => Ok l
  | VStr s => Ok (chars s)
  | VDict d => Ok (d.*1)
  | _ => Raise TypeError
  end.

(** [sep.join(l)]: every element has to be a [str]. *)
Fixpoint py_join (sep : string) (l : list value) : outcome string :=
  match l with
  | [] => Ok EmptyString
  | [VStr s] => Ok s
  | VStr s :: l' => t ← py_join sep l'; Ok (s +:+ sep +:+ t)
  | _ => Raise TypeError
  end.

(** [s.split(c)] for a one-character separator. *)
Fixpoint py_split (c : Ascii.ascii) (s : string) : list string :=
  match s with
  | EmptyString => [EmptyString]
  | String a s' =>
      if Ascii.eqb a c then EmptyString :: py_split c s'
      else match py_split c s' with
           | [] => [String a EmptyString]
           | w :: ws => String a w :: ws
           end
  end.

(** A [for] loop whose body may raise. *)
Fixpoint for_each {A B} (body : B → A → outcome B) (l : list A) (acc : B)
    : outcome B :=
  match l with
  | [] => Ok acc
  | x :: l' => acc' ← body acc x; for_each body l' acc'
  end.

(** A list comprehension [[f(x) for x in l]] whose element may raise. *)
Fixpoint comprehension {A B} (f : A → outcome B) (l : list A) : outcome (list B) :=
  match l with
  | [] => Ok []
  | x :: l' => y ← f x; ys ← comprehension f l'; Ok (y :: ys)
  end.

(** [s.add(x)] on a set kept as the list of its members. *)
Definition set_add (s : list value) (x : value) : list value :=
  if existsb (py_eqb x) s then s else (s ++ [x])%list.

(** [range(start, stop, step)] for a positive step: at most [stop] values. *)
Fixpoint range_from (fuel start stop step : nat) : list nat :=
  match fuel with
  | O => []
  | S fuel =>
      if (start <? stop)%nat
      then start :: range_from fuel (start + step) stop step
      else []
  end.

Definition py_range (start stop step : nat) : list nat :=
  range_from stop start stop step.

(** [l[i:j]] for [0 <= i <= j]. *)
Definition py_slice {A} (l : list A) (i j : nat) : list A :=
  take (j - i) (drop i l).

(** ** The outside world *)

Record request : Type := Request {
  url : string;
  params : list (string * value)
}.

(** [json_body] is [None] when the body is not JSON ([Response.json]
    raises). *)
Record response : Type := Response {
  status_code : Z;
  json_body : option value
}.

(** A path is its list of components, from the root. *)
Abbreviation path := (list string) (only parsing).

Inductive content : Type :=
  | Preexisting (tag : nat)
  | Downloaded (from : value)
  | Resized (c : content) (width height : Z).

Inductive node : Type :=
  | Dir
  | File (c : content).

Inductive event : Type :=
  | EvRequest (r : request)
  | EvSave (fname : string) (v : value)
  | EvMkdir (p : path)
  | EvDownload (from : value) (p : path)
  | EvResize (p : path) (width height : Z).

(** What the module takes from its surroundings: the remote API (a state
    machine answering each request, [None] for a transport failure), the
    configured credential, the rendering [str(v)] used by f-strings, the
    helper [youtube2zim.utils.get_slug], and the order in which a [set] is
    iterated, which Python leaves unspecified. *)
Class Externals : Type := {
  remote_state : Type;
  respond : remote_state → request → option response * remote_state;
  api_key : string;
  py_str : value → string;
  get_slug : value → outcome string;
  set_order : list value → list value
}.

Section Model.
Context `{Ext : Externals}.

Record world : Type := World {
  cache : gmap string value;       (* YOUTUBE.cache_dir *)
  remote : remote_state;
  fs : gmap path node;
  trace : list event
}.

Definition M (A : Type) : Type := world → outcome A * world.

Definition M_ret {A} (a : A) : M A := λ w, (Ok a, w).

Definition M_bind {A B} (f : A → M B) (m : M A) : M B :=
  λ w, match m w with
       | (Ok a, w') => f a w'
       | (Raise e, w') => (Raise e, w')
       | (OutOfFuel, w') => (OutOfFuel, w')
       end.

#[local] Instance M_mret : MRet M := @M_ret.
#[local] Instance M_mbind : MBind M := @M_bind.

Definition lift {A} (o : outcome A) : M A := λ w, (o, w).

Definition out_of_fuel {A} : M A := λ w, (OutOfFuel, w).

Definition emit (e : event) (w : world) : world :=
  World (cache w) (remote w) (fs w) (trace w ++ [e])%list.

(** Modelled from the spec: [youtube2zim.utils.load_json] is not part of the
    sources at hand.  Section 4.1: [get(key) -> blob | absent]; absence is
    the value [None], which is what the callers test with [is None], so
    that a blob that is the JSON null reads back like an absent one. *)
Definition load_json (fname : string) : M value :=
  λ w, (Ok (default VNone (cache w !! fname)), w).

(** Modelled from the spec: [youtube2zim.utils.save_json] is not part of the
    sources at hand.  Section 4.1: [put(key, blob)] always overwrites. *)
Definition save_json (fname : string) (v : value) : M unit :=
  λ w, (Ok tt,
        emit (EvSave fname v)
          (World (<[fname := v]> (cache w)) (remote w) (fs w) (trace w))).

(** [requests.get(url, params=..., timeout=REQUEST_TIMEOUT)] *)
Definition requests_get (rq : request) : M response :=
  λ w, let '(r, s') := respond (remote w) rq in
       (match r with Some resp => Ok resp | None => Raise RequestException end,
        emit (EvRequest rq) (World (cache w) s' (fs w) (trace w))).

(** [req.raise_for_status()]: client and server errors raise. The
    [logger.error] call in front of it has no effect on the state. *)
Definition raise_for_status (req : response) : outcome unit :=
  if ((400 <=? status_code req) && (status_code req <? 600))%Z
  then Raise HTTPError else Ok tt.

(** [req.json()] *)
Definition json (req : response) : outcome value :=
  match json_body req with
  | Some v => Ok v
  | None => Raise JSONDecodeError
  end.

Definition YOUTUBE_API : string := "https://www.googleapis.com/youtube/v3".
Definition PLAYLIST_API : string := YOUTUBE_API +:+ "/playlists".
Definition PLAYLIST_ITEMS_API : string := YOUTUBE_API +:+ "/playlistItems".
Definition CHANNELS_API : string := YOUTUBE_API +:+ "/channels".
Definition VIDEOS_API : string := YOUTUBE_API +:+ "/videos".
Definition MAX_VIDEOS_PER_REQUEST : nat := 50.
Definition RESULTS_PER_PAGE : Z := 50.

(** ** Resource accessors *)

(** [get_channel_json(channel_id, *, for_username=False)].  The [except]
    clause logs and re-raises, so the exception passes through. *)
Definition get_channel_json (channel_id : value) (for_username : bool) : M value :=
  let fname := "channel_" +:+ py_str channel_id in
  channel_json ← load_json fname;
  if is_None channel_json
  then
    req ← requests_get
      {| url := CHANNELS_API;
         params := [(if for_username then "forUsername" else "id", channel_id);
                    ("part", VStr "brandingSettings,snippet,contentDetails");
                    ("key", VStr api_key)] |};
    lift (raise_for_status req);;
    channel_json ← lift (body ← json req;
                         items ← getitem body (VStr "items");
                         getitem items (VInt 0));
    save_json fname channel_json;;
    mret channel_json
  else mret channel_json.

(** The [while True] loop of [get_channel_playlists_json]. *)
Fixpoint get_channel_playlists_loop (fuel : nat) (channel_id : value)
    (fname : string) (items : list value) (page_token : value) : M (list value) :=
  match fuel with
  | O => out_of_fuel
  | S fuel =>
      req ← requests_get
        {| url := PLAYLIST_API;
           params := [("channelId", channel_id);
                      ("part", VStr "id");
                      ("key", VStr api_key);
                      ("maxResults", VInt RESULTS_PER_PAGE);
                      ("pageToken", page_token)] |};
      lift (raise_for_status req);;
      channel_playlists_json ← lift (json req);
      items ← lift (page ← getitem channel_playlists_json (VStr "items");
                    new ← py_iter page;
                    Ok (items ++ new)%list);
      save_json fname (VList items);;
      page_token ← lift (dict_get channel_playlists_json (VStr "nextPageToken"));
      if truthy page_token
      then get_channel_playlists_loop fuel channel_id fname items page_token
      else mret items
  end.

Definition get_channel_playlists_json (fuel : nat) (channel_id : value) : M value :=
  let fname := "channel_" +:+ py_str channel_id +:+ "_playlists" in
  channel_playlists_json ← load_json fname;
  if negb (is_None channel_playlists_json)
  then mret channel_playlists_json
  else
    items ← get_channel_playlists_loop fuel channel_id fname [] VNone;
    mret (VList items).

(** [get_playlist_json(playlist_id)] *)
Definition get_playlist_json (playlist_id : value) : M value :=
  let fname := "playlist_" +:+ py_str playlist_id in
  playlist_json ← load_json fname;
  if is_None playlist_json
  then
    req ← requests_get
      {| url := PLAYLIST_API;
         params := [("id", playlist_id);
                    ("part", VStr "snippet");
                    ("key", VStr api_key)] |};
    lift (raise_for_status req);;
    playlist_json ← lift (body ← json req;
                          items ← getitem body (VStr "items");
                          getitem items (VInt 0));
    save_json fname playlist_json;;
    mret playlist_json
  else mret playlist_json.

(** The [while True] loop of [get_videos_json]. *)
Fixpoint get_videos_loop (fuel : nat) (playlist_id : value)
    (items : list value) (page_token : value) : M (list value) :=
  match fuel with
  | O => out_of_fuel
  | S fuel =>
      req ← requests_get
        {| url := PLAYLIST_ITEMS_API;
           params := [("playlistId", playlist_id);
                      ("part", VStr "snippet,contentDetails");
                      ("key", VStr api_key);
                      ("maxResults", VInt RESULTS_PER_PAGE);
                      ("pageToken", page_token)] |};
      lift (raise_for_status req);;
      videos_json ← lift (json req);
      items ← lift (page ← getitem videos_json (VStr "items");
                    new ← py_iter page;
                    Ok (items ++ new)%list);
      page_token ← lift (dict_get videos_json (VStr "nextPageToken"));
      if truthy page_token
      then get_videos_loop fuel playlist_id items page_token
      else mret items
  end.

Definition get_videos_json (fuel : nat) (playlist_id : value) : M value :=
  let fname := "playlist_" +:+ py_str playlist_id +:+ "_videos" in
  items ← load_json fname;
  if negb (is_None items)
  then mret items
  else
    items ← get_videos_loop fuel playlist_id [] VNone;
    save_json fname (VList items);;
    mret (VList items).

(** ** Batch author resolver *)

(** One execution of the [for item in videos_json["items"]] body:
    [req_items.update({item["id"]: {...}})]; the key of a dictionary display
    is evaluated before its value, and hashed once both are there. *)
Definition add_author (req_items : list (value * value)) (item : value)
    : outcome (list (value * value)) :=
  video_id ← getitem item (VStr "id");
  channelId ← (snippet ← getitem item (VStr "snippet");
               getitem snippet (VStr "channelId"));
  channelTitle ← (snippet ← getitem item (VStr "snippet");
                  getitem snippet (VStr "channelTitle"));
  if hashable video_id
  then Ok (dict_update req_items
             [(video_id, VDict [(VStr "channelId", channelId);
                                (VStr "channelTitle", channelTitle)])])
  else Raise TypeError.

(** The [while True] loop of the inner function [retrieve_videos_for]. *)
Fixpoint retrieve_videos_loop (fuel : nat) (videos_ids : list value)
    (req_items : list (value * value)) (page_token : value)
    : M (list (value * value)) :=
  match fuel with
  | O => out_of_fuel
  | S fuel =>
      ids ← lift (py_join "," videos_ids);
      req ← requests_get
        {| url := VIDEOS_API;
           params := [("id", VStr ids);
                      ("part", VStr "snippet");
                      ("key", VStr api_key);
                      ("maxResults", VInt RESULTS_PER_PAGE);
                      ("pageToken", page_token)] |};
      lift (raise_for_status req);;
      videos_json ← lift (json req);
      req_items ← lift (page ← getitem videos_json (VStr "items");
                        its ← py_iter page;
                        for_each add_author its req_items);
      page_token ← lift (dict_get videos_json (VStr "nextPageToken"));
      if truthy page_token
      then retrieve_videos_loop fuel videos_ids req_items page_token
      else mret req_items
  end.

Definition retrieve_videos_for (fuel : nat) (videos_ids : list value)
    : M (list (value * value)) :=
  retrieve_videos_loop fuel videos_ids [] VNone.

(** The [for interv in range(0, len(videos_ids), MAX_VIDEOS_PER_REQUEST)]
    loop, over the values [intervs] still to come. *)
Fixpoint authors_loop (fuel : nat) (videos_ids : list value) (intervs : list nat)
    (items : list (value * value)) : M (list (value * value)) :=
  match intervs with
  | [] => mret items
  | interv :: intervs =>
      req_items ← retrieve_videos_for fuel
        (py_slice videos_ids interv (interv + MAX_VIDEOS_PER_REQUEST));
      authors_loop fuel videos_ids intervs (dict_update items req_items)
  end.

Definition get_videos_authors_info (fuel : nat) (videos_ids : list value) : M value :=
  items ← load_json "videos_channels";
  if negb (is_None items)
  then mret items
  else
    items ← authors_loop fuel videos_ids
      (py_range 0 (length videos_ids) MAX_VIDEOS_PER_REQUEST) [];
    save_json "videos_channels" (VDict items);;
    mret (VDict items).

(** ** Channel assets *)

(** Path resolution from the root, as [stat] does it: every component on
    the way has to be a directory. *)
Fixpoint walk (files : gmap path node) (here : path) (rest : list string)
    : outcome node :=
  match files !! here with
  | None => Raise FileNotFoundError
  | Some n =>
      match rest with
      | [] => Ok n
      | x :: rest' =>
          match n with
          | Dir => walk files (here ++ [x])%list rest'
          | File _ => Raise NotADirectoryError
          end
      end
  end.

Definition stat (files : gmap path node) (p : path) : outcome node :=
  walk files [] p.

(** [Path.exists()] *)
Definition path_exists (p : path) : M bool :=
  λ w, (Ok (match stat (fs w) p with Ok _ => true | _ => false end), w).

(** [Path.is_dir()] *)
Definition is_dir (files : gmap path node) (p : path) : bool :=
  match stat files p with Ok Dir => true | _ => false end.

(** [os.mkdir(p)] *)
Definition os_mkdir (files : gmap path node) (p : path)
    : outcome (gmap path node) :=
  match stat files (removelast p) with
  | Ok Dir =>
      match files !! p with
      | Some _ => Raise FileExistsError
      | None => Ok (<[p := Dir]> files)
      end
  | Ok (File _) => Raise NotADirectoryError
  | Raise e => Raise e
  | OutOfFuel => OutOfFuel
  end.

(** [Path.mkdir(exist_ok=True)]: a missing parent is an error, an existing
    directory is not. *)
Definition mkdir_exist_ok (p : path) : M unit :=
  λ w, let w' := emit (EvMkdir p) w in
       match os_mkdir (fs w) p with
       | Ok files => (Ok tt, World (cache w') (remote w') files (trace w'))
       | Raise FileNotFoundError => (Raise FileNotFoundError, w')
       | Raise e => (if is_dir (fs w) p then Ok tt else Raise e, w')
       | OutOfFuel => (OutOfFuel, w')
       end.

(** [Path.joinpath(name)], for a name that is one path component. *)
Definition joinpath (p : path) (name : value) : outcome path :=
  match name with
  | VStr s => Ok (p ++ [s])%list
  | _ => Raise TypeError
  end.

(** [zimscraperlib.download.stream_file(url, fpath)], at its interface: the
    file at [fpath] then holds what [url] served. *)
Definition stream_file (from : value) (fpath : path) : M unit :=
  λ w, (Ok tt,
        emit (EvDownload from fpath)
          (World (cache w) (remote w)
                 (<[fpath := File (Downloaded from)]> (fs w)) (trace w))).

(** [zimscraperlib.image.transformation.resize_image(fpath, width, height)],
    at its interface. *)
Definition resize_image (fpath : path) (width height : Z) : M unit :=
  λ w, (Ok tt,
        emit (EvResize fpath width height)
          (World (cache w) (remote w)
                 (alter (λ n, match n with
                              | File c => File (Resized c width height)
                              | Dir => Dir
                              end) fpath (fs w))
                 (trace w))).

(** The [for quality in ("medium", "default")] loop with its [break]. *)
Fixpoint pick_thumbnail (qualities : list string) (thumbnails : value)
    : outcome value :=
  match qualities with
  | [] => Ok VNone
  | quality :: qualities =>
      present ← in_keys (VStr quality) thumbnails;
      if present : bool
      then (t ← getitem thumbnails (VStr quality); getitem t (VStr "url"))
      else pick_thumbnail qualities thumbnails
  end.

(** [save_channel_branding(channels_dir, channel_id, *, save_banner=False)].
    The banner branch is guarded by [save_banner and False]. *)
Definition save_channel_branding (channels_dir : path) (channel_id : value)
    (save_banner : bool) : M unit :=
  channel_json ← get_channel_json channel_id false;
  thumbnails ← lift (snippet ← getitem channel_json (VStr "snippet");
                     getitem snippet (VStr "thumbnails"));
  thumbnail ← lift (pick_thumbnail ["medium"; "default"] thumbnails);
  channel_dir ← lift (joinpath channels_dir channel_id);
  mkdir_exist_ok channel_dir;;
  profile_path ← lift (joinpath channel_dir (VStr "profile.jpg"));
  found ← path_exists profile_path;
  (if negb found
   then (if negb (truthy thumbnail)
         then lift (Raise ThumbnailNotFound)
         else mret tt);;
        stream_file thumbnail profile_path;;
        resize_image profile_path 100 100
   else mret tt);;
  if save_banner && false
  then banner ← lift (bs ← getitem channel_json (VStr "brandingSettings");
                      image ← getitem bs (VStr "image");
                      getitem image (VStr "bannerImageUrl"));
       banner_path ← lift (joinpath channel_dir (VStr "banner.jpg"));
       found ← path_exists banner_path;
       if negb found then stream_file banner banner_path else mret tt
  else mret tt.

(** ** Filter predicates *)

(** [skip_deleted_videos(item)]: the value [filter] keeps the item on.
    [and] evaluates its right operand only when the left one is true. *)
Definition skip_deleted_videos (item : value) : outcome bool :=
  title ← (snippet ← getitem item (VStr "snippet");
           getitem snippet (VStr "title"));
  if negb (py_eqb title (VStr "Deleted video"))
  then description ← (snippet ← getitem item (VStr "snippet");
                      getitem snippet (VStr "description"));
       Ok (negb (py_eqb description (VStr "This video is unavailable.")))
  else Ok false.

(** ** Playlists and the collection resolver *)

Record Playlist : Type := mkPlaylist {
  playlist_id : value;
  title : value;
  description : value;
  creator_id : value;
  creator_name : value;
  slug : string
}.

(** [Playlist.__init__] *)
Definition Playlist_init (playlist_id title description creator_id creator_name : value)
    : outcome Playlist :=
  slug ← get_slug title;
  Ok (mkPlaylist playlist_id title description creator_id creator_name slug).

(** [Playlist.from_id(playlist_id)] *)
Definition Playlist_from_id (playlist_id : value) : M Playlist :=
  playlist_json ← get_playlist_json playlist_id;
  lift (title ← (snippet ← getitem playlist_json (VStr "snippet");
                 getitem snippet (VStr "title"));
        description ← (snippet ← getitem playlist_json (VStr "snippet");
                       getitem snippet (VStr "description"));
        creator_id ← (snippet ← getitem playlist_json (VStr "snippet");
                      getitem snippet (VStr "channelId"));
        creator_name ← (snippet ← getitem playlist_json (VStr "snippet");
                        getitem snippet (VStr "channelTitle"));
        Playlist_init playlist_id title description creator_id creator_name).

(** A list comprehension whose element is an effectful call. *)
Fixpoint comprehensionM {A B} (f : A → M B) (l : list A) : M (list B) :=
  match l with
  | [] => mret []
  | x :: l' => y ← f x; ys ← comprehensionM f l'; mret (y :: ys)
  end.

(** [list(set(l))]: hashing an unhashable element raises; of equal elements
    the first stays; the order of the result is [set_order]'s. *)
Definition list_set (l : list value) : outcome (list value) :=
  if forallb hashable l
  then Ok (set_order (fold_left set_add l []))
  else Raise TypeError.

(** Modelled from the spec: the constants [USER], [CHANNEL] and [PLAYLIST] of
    [youtube2zim.constants] are not part of the sources at hand; section 8
    spells the tags "user", "channel" and "playlist". *)
Definition USER : string := "user".
Definition CHANNEL : string := "channel".
Definition PLAYLIST : string := "playlist".

(** [extract_playlists_details_from(collection_type, youtube_id)] *)
Definition extract_playlists_details_from (fuel : nat) (collection_type : string)
    (youtube_id : value) : M (list Playlist * value * value) :=
  '(playlist_ids, main_channel_id, uploads_playlist_id) ←
    (if String.eqb collection_type USER || String.eqb collection_type CHANNEL
     then
       channel_json ← (if String.eqb collection_type USER
                       then get_channel_json youtube_id true
                       else get_channel_json youtube_id false);
       main_channel_id ← lift (getitem channel_json (VStr "id"));
       listing ← get_channel_playlists_json fuel main_channel_id;
       playlist_ids ← lift (ps ← py_iter listing;
                            comprehension (λ p, getitem p (VStr "id")) ps);
       uploads ← lift (cd ← getitem channel_json (VStr "contentDetails");
                       rp ← getitem cd (VStr "relatedPlaylists");
                       getitem rp (VStr "uploads"));
       let playlist_ids := (playlist_ids ++ [uploads])%list in
       uploads_playlist_id ← lift (seq_index playlist_ids (-1));
       mret (playlist_ids, main_channel_id, uploads_playlist_id)
     else if String.eqb collection_type PLAYLIST
     then
       match youtube_id with
       | VStr s =>
           let playlist_ids := VStr <$> py_split ","%char s in
           first ← lift (seq_index playlist_ids 0);
           playlist ← Playlist_from_id first;
           mret (playlist_ids, creator_id playlist, VNone)
       | _ => lift (Raise AttributeError)
       end
     else lift (Raise NotImplementedError));
  ids ← lift (list_set playlist_ids);
  playlists ← comprehensionM Playlist_from_id ids;
  mret (playlists, main_channel_id, uploads_playlist_id).

(** ** The vocabulary of the specification *)

(** The four resource accessors of section 4.3. *)
Inductive accessor : Type :=
  | getChannel (byUsername : bool)
  | getChannelPlaylists
  | getPlaylist
  | getPlaylistVideos.

Definition call (a : accessor) (fuel : nat) (id : value) : M value :=
  match a with
  | getChannel byUsername => get_channel_json id byUsername
  | getChannelPlaylists => get_channel_playlists_json fuel id
  | getPlaylist => get_playlist_json id
  | getPlaylistVideos => get_videos_json fuel id
  end.

(** The cache key of an identifier, per accessor (section 6, persisted
    cache layout). *)
Definition accessor_key (a : accessor) (id : value) : string :=
  match a with
  | getChannel _ => "channel_" +:+ py_str id
  | getChannelPlaylists => "channel_" +:+ py_str id +:+ "_playlists"
  | getPlaylist => "playlist_" +:+ py_str id
  | getPlaylistVideos => "playlist_" +:+ py_str id +:+ "_videos"
  end.

(** The listing requests of section 6, for a given continuation cursor. *)
Definition channel_playlists_request (channel_id page_token : value) : request :=
  {| url := PLAYLIST_API;
     params := [("channelId", channel_id);
                ("part", VStr "id");
                ("key", VStr api_key);
                ("maxResults", VInt RESULTS_PER_PAGE);
                ("pageToken", page_token)] |}.

Definition playlist_items_request (playlist_id page_token : value) : request :=
  {| url := PLAYLIST_ITEMS_API;
     params := [("playlistId", playlist_id);
                ("part", VStr "snippet,contentDetails");
                ("key", VStr api_key);
                ("maxResults", VInt RESULTS_PER_PAGE);
                ("pageToken", page_token)] |}.

Definition videos_request (ids : string) (page_token : value) : request :=
  {| url := VIDEOS_API;
     params := [("id", VStr ids);
                ("part", VStr "snippet");
                ("key", VStr api_key);
                ("maxResults", VInt RESULTS_PER_PAGE);
                ("pageToken", page_token)] |}.

(** A response that is a page of a listing: no error status, a JSON object
    whose "items" is the array [items], and [cursor] what its
    "nextPageToken" holds ([None] when the field is absent). *)
Definition good_page (resp : response) (items : list value) (cursor : value) : Prop :=
  raise_for_status resp = Ok tt ∧
  ∃ body, json_body resp = Some body ∧
          getitem body (VStr "items") = Ok (VList items) ∧
          dict_get body (VStr "nextPageToken") = Ok cursor.

(** A request that fails: the transport gives up, or the status is a client
    or server error. *)
Definition failure_of (r : option response) : option exn :=
  match r with
  | None => Some RequestException
  | Some resp =>
      match raise_for_status resp with
      | Raise e => Some e
      | _ => None
      end
  end.

Inductive ending : Type :=
  | Complete
  | Broken (e : exn).

(** [page_stream mkreq s tok pages e s']: asked [mkreq tok] in state [s], and
    then [mkreq] of each cursor it hands out, the remote serves the pages
    [pages], every one but the last with a cursor (a token that is not
    empty), and ends in [s'], either with a last page without cursor
    ([Complete]) or with a failing request after them ([Broken]). *)
Inductive page_stream (mkreq : value → request)
    : remote_state → value → list (list value) → ending → remote_state → Prop :=
  | stream_last s tok resp items cursor s' :
      respond s (mkreq tok) = (Some resp, s') →
      good_page resp items cursor →
      truthy cursor = false →
      page_stream mkreq s tok [items] Complete s'
  | stream_broken s tok r e s' :
      respond s (mkreq tok) = (r, s') →
      failure_of r = Some e →
      page_stream mkreq s tok [] (Broken e) s'
  | stream_more s tok resp items cursor s' pages e s'' :
      respond s (mkreq tok) = (Some resp, s') →
      good_page resp items cursor →
      truthy cursor = true →
      page_stream mkreq s' cursor pages e s'' →
      page_stream mkreq s tok (items :: pages) e s''.

(** The number of requests a stream answers. *)
Definition stream_length (pages : list (list value)) (e : ending) : nat :=
  match e with
  | Complete => length pages
  | Broken _ => S (length pages)
  end.

Definition outcome_of_ending {A} (e : ending) (a : A) : outcome A :=
  match e with
  | Complete => Ok a
  | Broken x => Raise x
  end.

(** The cache writes and the requests of a trace, in order. *)
Definition saves_of (t : list event) : list (string * value) :=
  omap (λ ev, match ev with EvSave k v => Some (k, v) | _ => None end) t.

Definition requests_of (t : list event) : list request :=
  omap (λ ev, match ev with EvRequest r => Some r | _ => None end) t.

(** The trace of a listing that writes the cache after every page: each
    request is followed by the write of the items accumulated so far; a
    request past the last page (the failing one) by nothing. *)
Fixpoint per_page_trace (fname : string) (items : list value)
    (pages : list (list value)) (reqs : list request) : list event :=
  match reqs with
  | [] => []
  | r :: reqs =>
      match pages with
      | [] => EvRequest r :: per_page_trace fname items [] reqs
      | this :: pages =>
          EvRequest r :: EvSave fname (VList (items ++ this))
            :: per_page_trace fname (items ++ this) pages reqs
      end
  end.

(** [isDeleted(item)] of section 4.6: the items [skip_deleted_videos]
    filters out. *)
Definition isDeleted (item : value) : outcome bool :=
  keep ← skip_deleted_videos item; Ok (negb keep).

(** The classifier as section 4.6 words it: title and description both
    equal to their sentinel. *)
Definition isDeleted_spec (title description : value) : bool :=
  py_eqb title (VStr "Deleted video")
  && py_eqb description (VStr "This video is unavailable.").

(** A video item with the two fields the classifier reads. *)
Definition video_item (title description : value) : value :=
  VDict [(VStr "snippet",
          VDict [(VStr "title", title); (VStr "description", description)])].

(** The slices of [videos_ids] the resolver's [for] loop takes, in order. *)
Definition chunks_of (videos_ids : list value) : list (list value) :=
  (λ interv, py_slice videos_ids interv (interv + MAX_VIDEOS_PER_REQUEST))
    <$> py_range 0 (length videos_ids) MAX_VIDEOS_PER_REQUEST.

(** What the remote served for one chunk: the comma-joined ids it was asked
    for, the number of pages it answered with, and the author map their
    items make. *)
Record served_chunk : Type := ServedChunk {
  joined_ids : string;
  pages_served : nat;
  authors : list (value * value)
}.

(** [authors_served s chunks rs s']: from state [s] the remote serves the
    bulk lookup of each chunk in turn as a complete stream of pages, and ends
    in [s']; [rs] records what it served, chunk by chunk. *)
Inductive authors_served
    : remote_state → list (list value) → list served_chunk → remote_state → Prop :=
  | served_nil s : authors_served s [] [] s
  | served_cons s chunk ids pages m s1 chunks rs s2 :
      py_join "," chunk = Ok ids →
      page_stream (videos_request ids) s VNone pages Complete s1 →
      for_each add_author (concat pages) [] = Ok m →
      authors_served s1 chunks rs s2 →
      authors_served s (chunk :: chunks) (ServedChunk ids (length pages) m :: rs) s2.

(** The "id" parameter of a request. *)
Definition id_param (r : request) : option value :=
  snd <$> find (λ kv, String.eqb kv.1 "id") (params r).

(** The thumbnail set of a channel record (section 3): every quality it
    lists carries a URL. *)
Definition thumbnail_set (thumbnails : list (value * value)) : Prop :=
  ∀ quality entry,
    dict_lookup thumbnails (VStr quality) = Some entry →
    ∃ u, getitem entry (VStr "url") = Ok u.

(** The thumbnail entry the quality preference picks: "medium", else
    "default". *)
Definition preferred_thumbnail (thumbnails : list (value * value)) : option value :=
  match dict_lookup thumbnails (VStr "medium") with
  | Some entry => Some entry
  | None => dict_lookup thumbnails (VStr "default")
  end.

End Model.

(** ** A scripted remote, for running the model *)

(** The remote answers the i-th request with the i-th entry of its script,
    whatever the request; past the end the transport fails. *)
Definition scripted_respond (script : list (option response)) (rq : request)
    : option response * list (option response) :=
  match script with
  | [] => (None, [])
  | r :: script' => (r, script')
  end.

Definition Scripted : Externals := {|
  remote_state := list (option response);
  respond := scripted_respond;
  api_key := "KEY";
  py_str := λ v, match v with
                 | VStr s => s
                 | VNone => "None"
                 | VBool true => "True"
                 | VBool false => "False"
                 | _ => "?"
                 end;
  get_slug := λ t, match t with VStr s => Ok s | _ => Raise SlugError end;
  set_order := @rev value
|}.

(** A 200 response carrying [items] and, when given, a continuation
    cursor. *)
Definition page (items : list value) (next : option string) : option response :=
  Some {| status_code := 200;
          json_body := Some (VDict ((VStr "items", VList items) ::
                                    match next with
                                    | Some t => [(VStr "nextPageToken", VStr t)]
                                    | None => []
                                    end)) |}.

Definition failure (status : Z) : option response :=
  Some {| status_code := status; json_body := None |}.

Definition start (script : list (option response)) : world (Ext := Scripted) :=
  @World Scripted ∅ script ∅ [].

(** Resources as the API lays them out, with the fields the module reads. *)
Definition channel_resource (id uploads : string)
    (thumbnails : list (value * value)) : value :=
  VDict [(VStr "id", VStr id);
         (VStr "snippet", VDict [(VStr "thumbnails", VDict thumbnails)]);
         (VStr "contentDetails",
          VDict [(VStr "relatedPlaylists",
                  VDict [(VStr "uploads", VStr uploads)])])].

Definition playlist_resource (id channel : string) : value :=
  VDict [(VStr "id", VStr id);
         (VStr "snippet",
          VDict [(VStr "title", VStr ("Playlist " +:+ id));
                 (VStr "description", VStr EmptyString);
                 (VStr "channelId", VStr channel);
                 (VStr "channelTitle", VStr "Acme")])].

Definition video_resource (id channel : string) : value :=
  VDict [(VStr "id", VStr id);
         (VStr "snippet",
          VDict [(VStr "channelId", VStr channel);
                 (VStr "channelTitle", VStr "Acme")])].

Definition author_entry (channel : string) : value :=
  VDict [(VStr "channelId", VStr channel); (VStr "channelTitle", VStr "Acme")].

Definition joined (l : list value) : string :=
  match py_join "," l with
  | Ok s => s
  | _ => EmptyString
  end.

(** 101 video ids: fifty "a", fifty "b", one "c". *)
Definition ids101 : list value :=
  replicate 50 (VStr "a") ++ replicate 50 (VStr "b") ++ [VStr "c"].

(** The channel-assets directory, with and without the profile image of
    channel C1. *)
Definition assets_empty : gmap (list string) node :=
  <[["channels"] := Dir]> (<[[] := Dir]> ∅).

Definition assets_with_profile : gmap (list string) node :=
  <[["channels"; "C1"; "profile.jpg"] := File (Preexisting 0)]>
    (<[["channels"; "C1"] := Dir]> assets_empty).

(** A world whose cache holds the record of channel C1. *)
Definition channel_cached (thumbnails : list (value * value))
    (files : gmap (list string) node) : world (Ext := Scripted) :=
  @World Scripted {["channel_C1" := channel_resource "C1" "PUp" thumbnails]}
    [] files [].

(** ** The rest of the module *)

Section Rest.
Context `{Ext : Externals}.

#[local] Existing Instance M_mret.
#[local] Existing Instance M_mbind.

Definition SEARCH_API : string := YOUTUBE_API +:+ "/search".

(** [try: body except Exception: handler], for a body without effects. *)
Definition try_except {A} (body handler : outcome A) : outcome A :=
  match body with
  | Raise _ => handler
  | o => o
  end.

(** [credentials_ok()].  The request itself is outside the [try]. *)
Definition credentials_ok : M bool :=
  req ← requests_get
    {| url := SEARCH_API;
       params := [("part", VStr "snippet");
                  ("maxResults", VInt 1);
                  ("key", VStr api_key)] |};
  lift (try_except
          (raise_for_status req;;
           body ← json req;
           items ← getitem body (VStr "items");
           Ok (truthy items))
          (Ok false)).

(** [s.replace(old, new)] for one-character [old] and [new]. *)
Fixpoint str_replace (old new : Ascii.ascii) (s : string) : string :=
  match s with
  | EmptyString => EmptyString
  | String c s' =>
      String (if Ascii.eqb c old then new else c) (str_replace old new s')
  end.

(** The method [Playlist.__dict__]. *)
Definition Playlist_dict (self : Playlist) : value :=
  VDict [(VStr "playlist_id", playlist_id self);
         (VStr "title", title self);
         (VStr "description", description self);
         (VStr "creator_id", creator_id self);
         (VStr "creator_name", creator_name self);
         (VStr "slug", VStr (str_replace "_"%char "-"%char (slug self)))].

(** The single requests of section 6. *)
Definition search_request : request :=
  {| url := SEARCH_API;
     params := [("part", VStr "snippet");
                ("maxResults", VInt 1);
                ("key", VStr api_key)] |}.

Definition channel_request (channel_id : value) (for_username : bool) : request :=
  {| url := CHANNELS_API;
     params := [(if for_username then "forUsername" else "id", channel_id);
                ("part", VStr "brandingSettings,snippet,contentDetails");
                ("key", VStr api_key)] |}.

Definition playlist_request (playlist_id : value) : request :=
  {| url := PLAYLIST_API;
     params := [("id", playlist_id);
                ("part", VStr "snippet");
                ("key", VStr api_key)] |}.

(** The request a single-request accessor sends on a cache miss. *)
Definition lookup_request (a : accessor) (id : value) : request :=
  match a with
  | getChannel byUsername => channel_request id byUsername
  | _ => playlist_request id
  end.

(** The ids a channel-playlists listing holds: [[p["id"] for p in listing]]. *)
Definition listed_ids (listing : value) : outcome (list value) :=
  ps ← py_iter listing; comprehension (λ p, getitem p (VStr "id")) ps.

(** [snippet[field]] of a resource. *)
Definition snippet_field (resource : value) (field : string) : outcome value :=
  snippet ← getitem resource (VStr "snippet"); getitem snippet (VStr field).

End Rest.

(** * Properties *)

Section Properties.
Context `{Ext : Externals}.

#[local] Existing Instance M_mret.
#[local] Existing Instance M_mbind.

Ltac unfold_M :=
  unfold mbind, mret, M_mbind, M_mret, M_bind, M_ret, lift, out_of_fuel,
    outcome_mbind, outcome_ret, outcome_bind, load_json, save_json,
    requests_get, emit in *.

Ltac run_cases :=
  repeat (simplify_eq/=; try done; case_match); simplify_eq/=; try done.

(** A miss: the loaded value is [None], and the test on it is decided. *)
Ltac miss H := rewrite H; cbn [from_option is_None negb].

(** *** The Python primitives on small inputs *)

Example py_split_ABA : py_split ","%char "A,B,A" = ["A"; "B"; "A"].
Proof. reflexivity. Qed.

Example py_split_empty : py_split ","%char EmptyString = [EmptyString].
Proof. reflexivity. Qed.

Example py_join_ABA :
  py_join "," [VStr "A"; VStr "B"; VStr "A"] = Ok "A,B,A".
Proof. reflexivity. Qed.

Example py_join_not_str : py_join "," [VStr "A"; VInt 1] = Raise TypeError.
Proof. reflexivity. Qed.

Example py_range_101 : py_range 0 101 50 = [0; 50; 100].
Proof. reflexivity. Qed.

Example py_range_100 : py_range 0 100 50 = [0; 50].
Proof. reflexivity. Qed.

Example set_of_ABA :
  fold_left set_add [VStr "A"; VStr "B"; VStr "A"] [] = [VStr "A"; VStr "B"].
Proof. reflexivity. Qed.

Example set_of_True_1 :
  fold_left set_add [VBool true; VInt 1] [] = [VBool true].
Proof. reflexivity. Qed.

Example getitem_last : getitem (VList [VInt 1; VInt 2]) (VInt (-1)) = Ok (VInt 2).
Proof. reflexivity. Qed.

Example getitem_empty : getitem (VList []) (VInt 0) = Raise IndexError.
Proof. reflexivity. Qed.

Example status_404 : raise_for_status (Response 404 None) = Raise HTTPError.
Proof. reflexivity. Qed.

Example status_200 : raise_for_status (Response 200 None) = Ok tt.
Proof. reflexivity. Qed.

(** *** Fetch-or-reuse *)

Lemma is_None_false v : v ≠ VNone → is_None v = false.
Proof. by destruct v. Qed.

Lemma loaded_not_None (m : gmap string value) k :
  is_None (default VNone (m !! k)) = false →
  m !! k = Some (default VNone (m !! k)).
Proof. by destruct (m !! k) as [v|]. Qed.

Lemma call_hit a id fuel w v :
  cache w !! accessor_key a id = Some v →
  v ≠ VNone →
  call a fuel id w = (Ok v, w).
Proof.
  intros H Hv. apply is_None_false in Hv. destruct a; simpl in *;
    unfold get_channel_json, get_channel_playlists_json, get_playlist_json,
      get_videos_json; unfold_M; rewrite H; simpl; by rewrite Hv.
Qed.

Lemma get_channel_playlists_loop_saved fuel cid fname items tok w items' w' :
  get_channel_playlists_loop fuel cid fname items tok w = (Ok items', w') →
  cache w' !! fname = Some (VList items').
Proof.
  revert items tok w. induction fuel as [|fuel IH]; intros items tok w; simpl.
  - unfold_M. done.
  - unfold_M. intros H. run_cases; eauto.
    all: by rewrite lookup_insert_eq.
Qed.

Lemma call_stores a id fuel w v w' :
  call a fuel id w = (Ok v, w') →
  cache w' !! accessor_key a id = Some v.
Proof.
  destruct a; simpl;
    unfold get_channel_json, get_channel_playlists_json, get_playlist_json,
      get_videos_json; unfold_M; intros H.
  - destruct (is_None _) eqn:Hn; [|simplify_eq; by apply loaded_not_None].
    run_cases; by rewrite lookup_insert_eq.
  - destruct (is_None _) eqn:Hn; simpl in H;
      [|simplify_eq; by apply loaded_not_None].
    destruct (get_channel_playlists_loop _ _ _ _ _ _) as [[l| |] w1] eqn:Hl;
      simplify_eq.
    eapply get_channel_playlists_loop_saved, Hl.
  - destruct (is_None _) eqn:Hn; [|simplify_eq; by apply loaded_not_None].
    run_cases; by rewrite lookup_insert_eq.
  - destruct (is_None _) eqn:Hn; simpl in H;
      [|simplify_eq; by apply loaded_not_None].
    destruct (get_videos_loop _ _ _ _ _) as [[l| |] w1] eqn:Hl; simplify_eq/=.
    by rewrite lookup_insert_eq.
Qed.

(** *** Pagination *)

Lemma saves_of_app t1 t2 : saves_of (t1 ++ t2) = (saves_of t1 ++ saves_of t2)%list.
Proof. apply omap_app. Qed.

Lemma requests_of_app t1 t2 :
  requests_of (t1 ++ t2) = (requests_of t1 ++ requests_of t2)%list.
Proof. apply omap_app. Qed.

Lemma good_page_json resp items cursor :
  good_page resp items cursor →
  raise_for_status resp = Ok tt ∧
  ∃ body, json resp = Ok body ∧
          getitem body (VStr "items") = Ok (VList items) ∧
          dict_get body (VStr "nextPageToken") = Ok cursor.
Proof.
  intros [Hs (body & Hb & Hi & Hc)]. split; [done|].
  exists body. unfold json. by rewrite Hb.
Qed.

Lemma failure_of_Some r e :
  failure_of r = Some e →
  r = None ∧ e = RequestException ∨
  ∃ resp, r = Some resp ∧ raise_for_status resp = Raise e.
Proof.
  destruct r as [resp|]; simpl.
  - destruct (raise_for_status resp) eqn:H; intros; simplify_eq. eauto.
  - intros; simplify_eq. eauto.
Qed.

Lemma requests_of_requests reqs : requests_of (EvRequest <$> reqs) = reqs.
Proof. induction reqs as [|r reqs IH]; simpl; [done|]. by f_equal. Qed.

Lemma saves_of_requests reqs : saves_of (EvRequest <$> reqs) = [].
Proof. induction reqs as [|r reqs IH]; simpl; done. Qed.

Lemma saves_of_per_page_trace fname : ∀ pages items reqs,
  length pages ≤ length reqs →
  saves_of (per_page_trace fname items pages reqs)
  = (λ n, (fname, VList (items ++ concat (take n pages))))
      <$> seq 1 (length pages).
Proof.
  induction pages as [|this pages IH]; intros items reqs Hlen.
  - clear Hlen. simpl. induction reqs as [|r reqs IHr]; simpl; done.
  - destruct reqs as [|r reqs]; simpl in *; [lia|].
    rewrite IH by lia.
    rewrite <- (fmap_S_seq 1), <- list_fmap_compose, app_nil_r. f_equal.
    apply list_fmap_ext. intros _ n _. simpl. by rewrite <- app_assoc.
Qed.

Lemma get_videos_loop_stream pid s tok pages e s' :
  page_stream (playlist_items_request pid) s tok pages e s' →
  ∀ fuel items w,
    remote w = s →
    stream_length pages e ≤ fuel →
    ∃ toks, get_videos_loop fuel pid items tok w
            = (outcome_of_ending e (items ++ concat pages),
               World (cache w) s' (fs w)
                 (trace w ++ (EvRequest ∘ playlist_items_request pid <$> toks))) ∧
            length toks = stream_length pages e.
Proof.
  induction 1 as [s tok resp its cursor s' Hr Hg Ht
                 |s tok r x s' Hr Hf
                 |s tok resp its cursor s' pages e s'' Hr Hg Ht Hs IH];
    intros fuel items w Hrem Hfuel; subst s;
    (destruct fuel as [|fuel];
       [unfold stream_length in Hfuel; simpl in Hfuel; try case_match; lia|]);
    simpl; fold (playlist_items_request pid tok); unfold_M; rewrite Hr.
  - apply good_page_json in Hg as (-> & body & -> & -> & ->). simpl.
    rewrite Ht. exists [tok]. split; [by rewrite app_nil_r|done].
  - apply failure_of_Some in Hf as [[-> ->]|(resp & -> & ->)];
      by exists [tok].
  - apply good_page_json in Hg as (-> & body & -> & -> & ->). simpl.
    rewrite Ht.
    edestruct (IH fuel (items ++ its)
                 (World (cache w) s' (fs w)
                    (trace w ++ [EvRequest (playlist_items_request pid tok)])))
      as (toks & Hrun & Hlen); [done|destruct e; simpl in *; lia|].
    rewrite Hrun. simpl. exists (tok :: toks). split.
    + by rewrite <- !app_assoc.
    + simpl. rewrite Hlen. by destruct e.
Qed.

Lemma get_channel_playlists_loop_stream cid fname s tok pages e s' :
  page_stream (channel_playlists_request cid) s tok pages e s' →
  ∀ fuel items w,
    remote w = s →
    stream_length pages e ≤ fuel →
    ∃ toks, get_channel_playlists_loop fuel cid fname items tok w
            = (outcome_of_ending e (items ++ concat pages),
               World (match pages with
                      | [] => cache w
                      | _ => <[fname := VList (items ++ concat pages)]> (cache w)
                      end) s' (fs w)
                 (trace w ++ per_page_trace fname items pages
                               (channel_playlists_request cid <$> toks))) ∧
            length toks = stream_length pages e.
Proof.
  induction 1 as [s tok resp its cursor s' Hr Hg Ht
                 |s tok r x s' Hr Hf
                 |s tok resp its cursor s' pages e s'' Hr Hg Ht Hs IH];
    intros fuel items w Hrem Hfuel; subst s;
    (destruct fuel as [|fuel];
       [unfold stream_length in Hfuel; simpl in Hfuel; try case_match; lia|]);
    simpl; fold (channel_playlists_request cid tok); unfold_M; rewrite Hr.
  - apply good_page_json in Hg as (-> & body & -> & -> & ->). simpl.
    rewrite Ht. exists [tok]. by rewrite !app_nil_r, <- app_assoc.
  - apply failure_of_Some in Hf as [[-> ->]|(resp & -> & ->)];
      by exists [tok].
  - apply good_page_json in Hg as (-> & body & -> & -> & ->). simpl.
    rewrite Ht.
    edestruct (IH fuel (items ++ its)
                 (World (<[fname := VList (items ++ its)]> (cache w)) s' (fs w)
                    ((trace w ++ [EvRequest (channel_playlists_request cid tok)])
                       ++ [EvSave fname (VList (items ++ its))])))
      as (toks & Hrun & Hlen); [done|destruct e; simpl in *; lia|].
    rewrite Hrun. simpl. exists (tok :: toks). split.
    + rewrite <- !app_assoc. simpl. do 2 f_equal.
      destruct pages; simpl; [by rewrite app_nil_r|].
      by rewrite insert_insert_eq.
    + simpl. rewrite Hlen. by destruct e.
Qed.

(** The two listing accessors never return [None]: what they compute is a
    list, and what they reuse is a cached value other than [None]. *)
Lemma listing_not_None a id fuel w v w' :
  a = getChannelPlaylists ∨ a = getPlaylistVideos →
  call a fuel id w = (Ok v, w') →
  v ≠ VNone.
Proof.
  intros [-> | ->]; simpl;
    unfold get_channel_playlists_json, get_videos_json; unfold_M; intros H;
    (destruct (is_None _) eqn:Hn; simpl in H;
       [|simplify_eq; intros E; by rewrite E in Hn]).
  - destruct (get_channel_playlists_loop _ _ _ _ _ _) as [[l| |] w1];
      by simplify_eq.
  - destruct (get_videos_loop _ _ _ _ _) as [[l| |] w1]; by simplify_eq/=.
Qed.

(** C1 (as amended). Fetch-or-reuse: for every accessor ([getChannel], by id
    or by username, [getChannelPlaylists], [getPlaylist],
    [getPlaylistVideos]) and every identifier, a call that finds under the
    identifier's key a cached value other than the JSON null ([None]) returns
    exactly the cached value and leaves the world as it was: no request is
    sent (the trace and the remote are untouched).  Hence after a first call
    that returned a value [v] other than null, a second call with the same
    identifier returns [v] again, without a network request.  The two
    listing accessors never return null, so that for them this holds after
    every successful first call. *)
Theorem accessor_reuses_cache (a : accessor) (id : value) :
  (∀ fuel w v,
      cache w !! accessor_key a id = Some v →
      v ≠ VNone →
      call a fuel id w = (Ok v, w)) ∧
  (∀ fuel fuel' w v w',
      call a fuel id w = (Ok v, w') →
      v ≠ VNone →
      call a fuel' id w' = (Ok v, w')) ∧
  (∀ fuel fuel' w v w',
      a = getChannelPlaylists ∨ a = getPlaylistVideos →
      call a fuel id w = (Ok v, w') →
      call a fuel' id w' = (Ok v, w')).
Proof.
  split; [|split].
  - intros fuel w v. apply call_hit.
  - intros fuel fuel' w v w' Hfirst Hv.
    apply call_hit; [|done]. eapply call_stores, Hfirst.
  - intros fuel fuel' w v w' Ha Hfirst.
    apply call_hit; [eapply call_stores, Hfirst|].
    eapply listing_not_None; [exact Ha|exact Hfirst].
Qed.

(** C2. The two persistence disciplines.  Against a remote that serves some
    pages and then either ends the listing or fails a request, on a cache
    miss:
    - [getChannelPlaylists] writes its cache key after every fetched page,
      before the next request, each time with the items accumulated so far,
      so that after a failure the pages fetched so far remain under the
      key;
    - [getPlaylistVideos] writes its cache key exactly once, with the whole
      list, after the last page, and not at all when a request fails: the
      cache is then as it was, the entry absent. *)
Theorem persistence_disciplines (id : value) pages e s' fuel (w : world) :
  stream_length pages e ≤ fuel →
  (cache w !! accessor_key getChannelPlaylists id = None →
   page_stream (channel_playlists_request id) (remote w) VNone pages e s' →
   ∃ w' toks,
     get_channel_playlists_json fuel id w
     = (outcome_of_ending e (VList (concat pages)), w') ∧
     length toks = stream_length pages e ∧
     trace w'
     = trace w ++ per_page_trace (accessor_key getChannelPlaylists id) [] pages
                    (channel_playlists_request id <$> toks) ∧
     saves_of (trace w')
     = saves_of (trace w) ++
       ((λ n, (accessor_key getChannelPlaylists id,
               VList (concat (take n pages)))) <$> seq 1 (length pages)) ∧
     cache w'
     = match pages with
       | [] => cache w
       | _ => <[accessor_key getChannelPlaylists id := VList (concat pages)]>
                (cache w)
       end) ∧
  (cache w !! accessor_key getPlaylistVideos id = None →
   page_stream (playlist_items_request id) (remote w) VNone pages e s' →
   ∃ w' toks,
     get_videos_json fuel id w
     = (outcome_of_ending e (VList (concat pages)), w') ∧
     length toks = stream_length pages e ∧
     trace w'
     = trace w ++ (EvRequest ∘ playlist_items_request id <$> toks) ++
       match e with
       | Complete =>
           [EvSave (accessor_key getPlaylistVideos id) (VList (concat pages))]
       | Broken _ => []
       end ∧
     saves_of (trace w')
     = saves_of (trace w) ++
       match e with
       | Complete => [(accessor_key getPlaylistVideos id, VList (concat pages))]
       | Broken _ => []
       end ∧
     cache w'
     = match e with
       | Complete =>
           <[accessor_key getPlaylistVideos id := VList (concat pages)]> (cache w)
       | Broken _ => cache w
       end).
Proof.
  intros Hfuel. split; intros Hmiss Hs; simpl in Hmiss.
  - unfold get_channel_playlists_json. unfold_M. miss Hmiss.
    edestruct (get_channel_playlists_loop_stream id
                 ("channel_" +:+ py_str id +:+ "_playlists") _ _ _ _ _ Hs
                 fuel [] w) as (toks & Hrun & Hlen); [done..|].
    rewrite Hrun.
    assert (length pages ≤ length (channel_playlists_request id <$> toks)) as Hle
      by (rewrite length_fmap, Hlen; destruct e; simpl; lia).
    pose proof (saves_of_per_page_trace
                  ("channel_" +:+ py_str id +:+ "_playlists") pages [] _ Hle)
      as Hsv.
    simpl in Hsv.
    destruct e; simpl; eexists _, toks; (split; [done|]); simpl;
      rewrite saves_of_app, Hsv; repeat split; done.
  - unfold get_videos_json. unfold_M. miss Hmiss.
    edestruct (get_videos_loop_stream id _ _ _ _ _ Hs fuel [] w)
      as (toks & Hrun & Hlen); [done..|].
    rewrite Hrun.
    destruct e; simpl; eexists _, toks; (split; [done|]); simpl.
    + rewrite !saves_of_app, list_fmap_compose, saves_of_requests, app_nil_r.
      rewrite <- app_assoc. repeat split; done.
    + rewrite saves_of_app, list_fmap_compose, saves_of_requests, !app_nil_r.
      repeat split; done.
Qed.

(** C4. Pagination: when the remote serves [N] pages to the playlist-items
    listing, the first [N-1] each with a continuation cursor (a token that
    is not empty) and the last without, [get_videos_json], on a cache miss
    and given fuel for [N] iterations, returns the concatenation of the
    pages' item arrays, in page order and each page in its own order,
    having sent exactly [N] requests. *)
Theorem get_videos_json_concatenates_pages (playlist_id : value) pages s' fuel
    (w : world) :
  cache w !! accessor_key getPlaylistVideos playlist_id = None →
  page_stream (playlist_items_request playlist_id) (remote w) VNone
    pages Complete s' →
  length pages ≤ fuel →
  ∃ w', get_videos_json fuel playlist_id w = (Ok (VList (concat pages)), w') ∧
        remote w' = s' ∧
        length (requests_of (trace w'))
        = length (requests_of (trace w)) + length pages.
Proof.
  intros Hmiss Hs Hfuel. simpl in Hmiss.
  unfold get_videos_json. unfold_M. miss Hmiss.
  edestruct (get_videos_loop_stream playlist_id _ _ _ _ _ Hs fuel [] w)
    as (toks & Hrun & Hlen); [done..|].
  rewrite Hrun. simpl. eexists. split; [done|]. split; [done|]. simpl.
  rewrite !requests_of_app, list_fmap_compose, requests_of_requests.
  rewrite !length_app, length_fmap, Hlen. simpl. lia.
Qed.

(** *** The deleted-video classifier *)

Lemma py_eqb_VStr v s : py_eqb v (VStr s) = true ↔ v = VStr s.
Proof.
  destruct v as [|b|n|s'|l|d]; simpl;
    try rewrite String.eqb_eq; split; congruence.
Qed.

(** C3 (as amended). For every video item with title [t] and description
    [d], [isDeleted] holds exactly when [t] is "Deleted video" or [d] is
    "This video is unavailable.": one sentinel is enough. *)
Theorem isDeleted_either_sentinel (item snippet t d : value) :
  getitem item (VStr "snippet") = Ok snippet →
  getitem snippet (VStr "title") = Ok t →
  getitem snippet (VStr "description") = Ok d →
  ∃ b, isDeleted item = Ok b ∧
       (b = true ↔ t = VStr "Deleted video" ∨ d = VStr "This video is unavailable.").
Proof.
  intros Hs Ht Hd. unfold isDeleted, skip_deleted_videos.
  unfold mbind, outcome_mbind, outcome_bind. rewrite Hs, Ht.
  destruct (py_eqb t (VStr "Deleted video")) eqn:Et; simpl.
  - eexists. split; [done|]. apply py_eqb_VStr in Et. tauto.
  - rewrite Hd. simpl. eexists. split; [done|].
    rewrite negb_involutive, py_eqb_VStr.
    assert (t ≠ VStr "Deleted video").
    { intros E. apply py_eqb_VStr in E. congruence. }
    tauto.
Qed.

(** *** The author cache *)

(** C6 (as amended). The author resolver has one cache entry,
    "videos_channels", whatever the ids asked for: once it is present with a
    value other than the JSON null ([None]), a call with any id sequence
    returns the cached value and leaves the world as it was, without a
    request. *)
Theorem get_videos_authors_info_cached fuel (videos_ids : list value)
    (w : world) (v : value) :
  cache w !! "videos_channels" = Some v →
  v ≠ VNone →
  get_videos_authors_info fuel videos_ids w = (Ok v, w).
Proof.
  intros H Hv. apply is_None_false in Hv.
  unfold get_videos_authors_info. unfold_M. rewrite H. simpl. by rewrite Hv.
Qed.

(** *** Batches *)

Lemma for_each_app {A B} (body : B → A → outcome B) l1 l2 acc :
  for_each body (l1 ++ l2) acc = for_each body l1 acc ≫= for_each body l2.
Proof.
  revert acc. induction l1 as [|x l1 IH]; intros acc; simpl; [done|].
  unfold mbind, outcome_mbind, outcome_bind in *.
  destruct (body acc x); simpl; [apply IH|done..].
Qed.

Lemma retrieve_videos_loop_stream videos_ids ids s tok pages e s' :
  py_join "," videos_ids = Ok ids →
  page_stream (videos_request ids) s tok pages e s' →
  ∀ fuel req_items w m,
    remote w = s →
    stream_length pages e ≤ fuel →
    for_each add_author (concat pages) req_items = Ok m →
    ∃ toks, retrieve_videos_loop fuel videos_ids req_items tok w
            = (outcome_of_ending e m,
               World (cache w) s' (fs w)
                 (trace w ++ (EvRequest ∘ videos_request ids <$> toks))) ∧
            length toks = stream_length pages e.
Proof.
  intros Hj.
  induction 1 as [s tok resp its cursor s' Hr Hg Ht
                 |s tok r x s' Hr Hf
                 |s tok resp its cursor s' pages e s'' Hr Hg Ht Hs IH];
    intros fuel acc w m Hrem Hfuel Hm; subst s;
    (destruct fuel as [|fuel];
       [unfold stream_length in Hfuel; simpl in Hfuel; try case_match; lia|]);
    simpl; unfold_M; rewrite Hj; fold (videos_request ids tok); rewrite Hr.
  - apply good_page_json in Hg as (-> & body & -> & -> & ->). simpl in *.
    rewrite app_nil_r in Hm. rewrite Hm, Ht. by exists [tok].
  - apply failure_of_Some in Hf as [[-> ->]|(resp & -> & ->)];
      by exists [tok].
  - apply good_page_json in Hg as (-> & body & -> & -> & ->). simpl in *.
    rewrite for_each_app in Hm.
    unfold mbind, outcome_mbind, outcome_bind in Hm.
    destruct (for_each add_author its acc) as [acc1| |] eqn:Hacc; try done.
    rewrite Ht.
    edestruct (IH fuel acc1
                 (World (cache w) s' (fs w)
                    (trace w ++ [EvRequest (videos_request ids tok)])) m)
      as (toks & Hrun & Hlen); [done|destruct e; simpl in *; lia|done|].
    rewrite Hrun. simpl. exists (tok :: toks). split.
    + by rewrite <- app_assoc.
    + simpl. rewrite Hlen. by destruct e.
Qed.

Lemma authors_loop_served s chunks rs s' :
  authors_served s chunks rs s' →
  ∀ videos_ids intervs fuel items w,
    remote w = s →
    chunks = (λ interv, py_slice videos_ids interv
                          (interv + MAX_VIDEOS_PER_REQUEST)) <$> intervs →
    Forall (λ r, pages_served r ≤ fuel) rs →
    ∃ reqs, authors_loop fuel videos_ids intervs items w
            = (Ok (fold_left dict_update (authors <$> rs) items),
               World (cache w) s' (fs w) (trace w ++ (EvRequest <$> reqs))) ∧
            id_param <$> reqs
            = concat ((λ r, replicate (pages_served r)
                              (Some (VStr (joined_ids r)))) <$> rs) ∧
            Forall (λ r, url r = VIDEOS_API) reqs.
Proof.
  induction 1 as [s|s chunk ids pages m s1 chunks rs s2 Hj Hs Hm Hrest IH];
    intros videos_ids intervs fuel items w Hrem Hchunks Hfuel; subst s.
  - destruct intervs; [|done]. exists []. simpl. unfold_M.
    rewrite app_nil_r. by destruct w.
  - destruct intervs as [|interv intervs]; [done|].
    simpl in Hchunks. injection Hchunks as -> ->.
    apply Forall_cons in Hfuel as [Hfuel1 Hfuel]. simpl in Hfuel1.
    simpl. unfold retrieve_videos_for. unfold_M.
    edestruct (retrieve_videos_loop_stream _ _ _ _ _ _ _ Hj Hs fuel [] w m)
      as (toks & Hrun & Hlen); [done..|].
    rewrite Hrun. simpl in *.
    edestruct (IH videos_ids intervs fuel (dict_update items m)
                 (World (cache w) s1 (fs w)
                    (trace w ++ (EvRequest ∘ videos_request ids <$> toks))))
      as (reqs & Hrun' & Hids & Hurl); [done..|].
    rewrite Hrun'. simpl.
    exists ((videos_request ids <$> toks) ++ reqs). split; [|split].
    + by rewrite fmap_app, <- list_fmap_compose, app_assoc.
    + rewrite fmap_app, Hids, <- list_fmap_compose. f_equal.
      rewrite <- Hlen. clear.
      induction toks as [|tok toks IH]; simpl; [done|]. by rewrite <- IH.
    + apply Forall_app. split; [|done]. by apply Forall_fmap, Forall_true.
Qed.

Lemma range_from_below fuel start stop step :
  Forall (λ i, i < stop) (range_from fuel start stop step).
Proof.
  revert start. induction fuel as [|fuel IH]; intros start; simpl; [done|].
  destruct (Nat.ltb_spec start stop); [|done].
  constructor; [done|apply IH].
Qed.

Lemma range_from_slices {A} (l : list A) step fuel start :
  0 < step →
  length l - start ≤ fuel →
  concat ((λ i, py_slice l i (i + step)) <$> range_from fuel start (length l) step)
  = drop start l.
Proof.
  intros Hstep. revert start.
  induction fuel as [|fuel IH]; intros start Hfuel; simpl.
  - rewrite drop_ge; [done|lia].
  - destruct (Nat.ltb_spec start (length l)).
    + simpl. rewrite IH by lia. unfold py_slice.
      replace (start + step - start) with step by lia.
      rewrite <- drop_drop. apply take_drop.
    + rewrite drop_ge; [done|lia].
Qed.

Lemma chunks_of_partition (videos_ids : list value) :
  concat (chunks_of videos_ids) = videos_ids ∧
  Forall (λ chunk, 0 < length chunk ≤ MAX_VIDEOS_PER_REQUEST)
    (chunks_of videos_ids).
Proof.
  unfold chunks_of, py_range, MAX_VIDEOS_PER_REQUEST. split.
  - rewrite range_from_slices by lia. apply drop_0.
  - apply Forall_fmap.
    eapply Forall_impl; [apply range_from_below|].
    intros i Hi. simpl in *. unfold py_slice.
    rewrite length_take, length_drop. lia.
Qed.

Lemma chunks_of_101 (videos_ids : list value) :
  length videos_ids = 101 →
  length <$> chunks_of videos_ids = [50; 50; 1].
Proof.
  intros Hlen. unfold chunks_of, MAX_VIDEOS_PER_REQUEST.
  rewrite Hlen, <- list_fmap_compose.
  change (py_range 0 101 50) with [0; 50; 100]. simpl.
  unfold py_slice. rewrite !length_take, !length_drop, Hlen. done.
Qed.

Lemma authors_served_joined s chunks rs s' :
  authors_served s chunks rs s' →
  Forall2 (λ chunk r, py_join "," chunk = Ok (joined_ids r)) chunks rs.
Proof. induction 1; constructor; done. Qed.

(** C5. The author resolver cuts its input into consecutive chunks of at
    most 50 ids (101 ids give chunks of 50, 50 and 1).  On a cache miss,
    against a remote that serves the bulk lookup of each chunk in turn, it
    returns the per-chunk author maps merged in chunk order; the requests it
    sends are, chunk after chunk, one per page served, all to the videos
    endpoint and each carrying the comma-joined ids of its chunk; and it
    writes the merged map to the cache once, under "videos_channels", at
    the end.  When every chunk is served in one page, 101 ids cost exactly 3
    requests. *)
Theorem get_videos_authors_info_batches (videos_ids : list value) :
  (concat (chunks_of videos_ids) = videos_ids ∧
   Forall (λ chunk, 0 < length chunk ≤ 50) (chunks_of videos_ids) ∧
   (length videos_ids = 101 → length <$> chunks_of videos_ids = [50; 50; 1])) ∧
  ∀ rs s' fuel (w : world),
    cache w !! "videos_channels" = None →
    authors_served (remote w) (chunks_of videos_ids) rs s' →
    Forall (λ r, pages_served r ≤ fuel) rs →
    let merged := VDict (fold_left dict_update (authors <$> rs) []) in
    ∃ w' reqs,
      get_videos_authors_info fuel videos_ids w = (Ok merged, w') ∧
      requests_of (trace w') = requests_of (trace w) ++ reqs ∧
      Forall (λ r, url r = VIDEOS_API) reqs ∧
      id_param <$> reqs
      = concat ((λ r, replicate (pages_served r)
                        (Some (VStr (joined_ids r)))) <$> rs) ∧
      Forall2 (λ chunk r, py_join "," chunk = Ok (joined_ids r))
        (chunks_of videos_ids) rs ∧
      saves_of (trace w') = saves_of (trace w) ++ [("videos_channels", merged)] ∧
      cache w' = <["videos_channels" := merged]> (cache w) ∧
      (length videos_ids = 101 →
       Forall (λ r, pages_served r = 1) rs →
       length reqs = 3).
Proof.
  split.
  { destruct (chunks_of_partition videos_ids) as [Hcat Hsz].
    split; [done|]. split; [done|]. apply chunks_of_101. }
  intros rs s' fuel w Hmiss Hserved Hfuel merged.
  unfold get_videos_authors_info. unfold_M. miss Hmiss.
  edestruct (authors_loop_served _ _ _ _ Hserved videos_ids
               (py_range 0 (length videos_ids) MAX_VIDEOS_PER_REQUEST)
               fuel [] w) as (reqs & Hrun & Hids & Hurl); [done..|].
  rewrite Hrun. simpl. eexists _, reqs. split; [done|]. simpl.
  pose proof (authors_served_joined _ _ _ _ Hserved) as Hjoined.
  repeat split; try done.
  - by rewrite !requests_of_app, requests_of_requests, app_nil_r.
  - by rewrite !saves_of_app, saves_of_requests, app_nil_r.
  - intros Hlen Hone.
    apply Forall2_length in Hjoined.
    apply chunks_of_101 in Hlen. apply (f_equal length) in Hlen.
    rewrite length_fmap in Hlen. rewrite Hlen in Hjoined. simpl in Hjoined.
    destruct rs as [|r1 [|r2 [|r3 [|r4 rs]]]]; try done.
    apply (f_equal length) in Hids. rewrite length_fmap in Hids.
    rewrite Hids. simpl.
    repeat (apply Forall_cons in Hone as [-> Hone]). done.
Qed.

(** *** The collection resolver *)

Lemma M_bind_Ok {A B} (f : A → M B) (m : M A) w b w' :
  (m ≫= f) w = (Ok b, w') →
  ∃ a w1, m w = (Ok a, w1) ∧ f a w1 = (Ok b, w').
Proof.
  unfold mbind, M_mbind, M_bind.
  destruct (m w) as [[a| |] w1]; intros; simplify_eq; eauto.
Qed.

Lemma lift_Ok {A} (o : outcome A) w a w' :
  lift o w = (Ok a, w') → o = Ok a ∧ w' = w.
Proof. unfold lift. intros. by simplify_eq. Qed.

Lemma outcome_bind_Ok {A B} (f : A → outcome B) (o : outcome A) b :
  o ≫= f = Ok b → ∃ a, o = Ok a ∧ f a = Ok b.
Proof.
  unfold mbind, outcome_mbind, outcome_bind.
  destruct o; intros; simplify_eq; eauto.
Qed.

Lemma Playlist_from_id_playlist_id id w p w' :
  Playlist_from_id id w = (Ok p, w') → playlist_id p = id.
Proof.
  unfold Playlist_from_id. intros H.
  apply M_bind_Ok in H as (pj & w1 & _ & H).
  apply lift_Ok in H as [H _].
  repeat (apply outcome_bind_Ok in H as (? & _ & H)).
  by simplify_eq.
Qed.

Lemma comprehensionM_playlist_ids ids w ps w' :
  comprehensionM Playlist_from_id ids w = (Ok ps, w') →
  playlist_id <$> ps = ids.
Proof.
  revert w ps. induction ids as [|id ids IH]; intros w ps H; simpl in H.
  - unfold mret, M_mret, M_ret in H. by simplify_eq.
  - apply M_bind_Ok in H as (p & w1 & Hp & H).
    apply M_bind_Ok in H as (ps' & w2 & Hps & H).
    unfold mret, M_mret, M_ret in H. simplify_eq. simpl.
    f_equal; [by eapply Playlist_from_id_playlist_id|by eapply IH].
Qed.

Lemma py_eqb_sym a b : py_eqb a b = py_eqb b a.
Proof.
  destruct a, b; simpl; try done;
    try (by rewrite Z.eqb_sym); by rewrite String.eqb_sym.
Qed.

Lemma py_eqb_refl a : hashable a = true → py_eqb a a = true.
Proof.
  destruct a; simpl; try done; intros _;
    [by rewrite Z.eqb_refl..|by rewrite String.eqb_refl].
Qed.

Lemma existsb_py_eqb x s :
  existsb (py_eqb x) s = true ↔ ∃ y, y ∈ s ∧ py_eqb x y = true.
Proof.
  rewrite existsb_exists. by setoid_rewrite list_elem_of_In.
Qed.

(** Every hashable member of the input has an equal in the set. *)
Lemma set_add_covers l : ∀ acc x,
  (x ∈ l ∧ hashable x = true) ∨ (∃ y, y ∈ acc ∧ py_eqb x y = true) →
  ∃ y, y ∈ fold_left set_add l acc ∧ py_eqb x y = true.
Proof.
  induction l as [|z l IH]; intros acc x Hx; simpl.
  - destruct Hx as [[Hx _]|Hx]; [by apply elem_of_nil in Hx|done].
  - apply IH. unfold set_add.
    destruct (existsb (py_eqb z) acc) eqn:Hz.
    + destruct Hx as [[Hx Hh]|Hx]; [|by right].
      apply elem_of_cons in Hx as [->|Hx]; [|by left].
      right. by apply existsb_py_eqb.
    + destruct Hx as [[Hx Hh]|(y & Hy & Hxy)].
      * apply elem_of_cons in Hx as [->|Hx]; [|by left].
        right. exists z. split; [set_solver|by apply py_eqb_refl].
      * right. exists y. split; [set_solver|done].
Qed.

(** On strings the set is the duplicate-free list of the members. *)
Lemma set_add_strings (l : list string) : ∀ acc,
  NoDup acc →
  NoDup (fold_left set_add (VStr <$> l) acc) ∧
  ∀ x, x ∈ fold_left set_add (VStr <$> l) acc ↔ x ∈ acc ∨ x ∈ VStr <$> l.
Proof.
  induction l as [|a l IH]; intros acc Hacc; simpl.
  - split; [done|]. set_solver.
  - assert (existsb (py_eqb (VStr a)) acc = true ↔ VStr a ∈ acc) as Hin.
    { rewrite existsb_py_eqb. split.
      - intros (y & Hy & E). rewrite py_eqb_sym in E.
        apply py_eqb_VStr in E. by subst.
      - intros H. exists (VStr a). split; [done|]. by apply py_eqb_refl. }
    unfold set_add at 2 4.
    destruct (existsb (py_eqb (VStr a)) acc) eqn:Hz.
    + destruct (IH acc Hacc) as [Hnd Hmem]. split; [done|].
      intros x. rewrite Hmem, elem_of_cons.
      pose proof (proj1 Hin eq_refl). naive_solver.
    + assert (VStr a ∉ acc) as Hnotin by (intros ?%Hin; congruence).
      destruct (IH (acc ++ [VStr a])) as [Hnd Hmem].
      { apply NoDup_app. split; [done|]. split; [|apply NoDup_singleton].
        intros y Hy ->%list_elem_of_singleton. done. }
      split; [done|]. intros x.
      rewrite Hmem, elem_of_app, list_elem_of_singleton, elem_of_cons.
      naive_solver.
Qed.

Lemma seq_index_last l x : seq_index (l ++ [x]) (-1) = Ok x.
Proof.
  unfold seq_index. rewrite length_app. simpl.
  replace (-1 + Z.of_nat (length l + 1))%Z with (Z.of_nat (length l)) by lia.
  rewrite Nat2Z.id.
  destruct (Z.leb_spec 0 (Z.of_nat (length l))); [|lia].
  destruct (Z.ltb_spec (Z.of_nat (length l)) (Z.of_nat (length l + 1))); [|lia].
  simpl. by rewrite lookup_app_r, Nat.sub_diag.
Qed.

Lemma list_set_Ok l ids :
  list_set l = Ok ids →
  forallb hashable l = true ∧ ids = set_order (fold_left set_add l []).
Proof.
  unfold list_set. destruct (forallb hashable l); intros; by simplify_eq.
Qed.

(** C7. Whenever the resolution of a User or Channel collection succeeds,
    the uploads playlist id it returns is the "uploads" entry of the channel
    record the channel lookup gave, and one of the returned playlists has
    that id (equal in Python's sense; the very same value when the id is a
    string), whatever the channel-playlists listing returned. *)
Theorem uploads_playlist_in_collection fuel collection_type (youtube_id : value)
    (w : world) playlists main_channel_id uploads_playlist_id w' :
  (∀ l, set_order l ≡ₚ l) →
  collection_type = USER ∨ collection_type = CHANNEL →
  extract_playlists_details_from fuel collection_type youtube_id w
  = (Ok (playlists, main_channel_id, uploads_playlist_id), w') →
  (∃ channel_json w1 cd rp,
      get_channel_json youtube_id (String.eqb collection_type USER) w
      = (Ok channel_json, w1) ∧
      getitem channel_json (VStr "contentDetails") = Ok cd ∧
      getitem cd (VStr "relatedPlaylists") = Ok rp ∧
      getitem rp (VStr "uploads") = Ok uploads_playlist_id) ∧
  ∃ p, p ∈ playlists ∧
       py_eqb (playlist_id p) uploads_playlist_id = true ∧
       (∀ s, uploads_playlist_id = VStr s → playlist_id p = VStr s).
Proof.
  intros Hperm Hct H. unfold extract_playlists_details_from in H.
  apply M_bind_Ok in H as ([[pids m] u] & w1 & Hbranch & H).
  apply M_bind_Ok in H as (ids & w2 & Hset & H).
  apply lift_Ok in Hset as [Hset ->].
  apply M_bind_Ok in H as (ps & w3 & Hps & H).
  unfold mret, M_mret, M_ret in H. simplify_eq.
  apply list_set_Ok in Hset as [Hhash ->].
  apply comprehensionM_playlist_ids in Hps.
  assert (String.eqb collection_type USER || String.eqb collection_type CHANNEL
          = true) as Htag by (by destruct Hct as [-> | ->]).
  rewrite Htag in Hbranch. clear Htag.
  apply M_bind_Ok in Hbranch as (channel_json & wa & Hchannel & Hbranch).
  apply M_bind_Ok in Hbranch as (main & wb & Hmain & Hbranch).
  apply M_bind_Ok in Hbranch as (listing & wc & Hlisting & Hbranch).
  apply M_bind_Ok in Hbranch as (listed & wd & Hlisted & Hbranch).
  apply M_bind_Ok in Hbranch as (uploads & we & Huploads & Hbranch).
  apply M_bind_Ok in Hbranch as (last & wf & Hlast & Hbranch).
  unfold mret, M_mret, M_ret in Hbranch. simplify_eq.
  apply lift_Ok in Hlast as [Hlast _]. rewrite seq_index_last in Hlast.
  simplify_eq.
  apply lift_Ok in Huploads as [Huploads _].
  apply outcome_bind_Ok in Huploads as (cd & Hcd & Huploads).
  apply outcome_bind_Ok in Huploads as (rp & Hrp & Huploads).
  split.
  { exists channel_json, wa, cd, rp. split; [|done].
    by destruct (String.eqb collection_type USER). }
  rewrite forallb_app in Hhash. apply andb_true_iff in Hhash as [_ Hhash].
  simpl in Hhash. rewrite andb_true_r in Hhash.
  destruct (set_add_covers (listed ++ [uploads_playlist_id]) []
              uploads_playlist_id) as (y & Hy & Heq).
  { left. split; [|done]. apply elem_of_app. right. by apply list_elem_of_singleton. }
  rewrite <- (Hperm _), <- Hps in Hy.
  apply list_elem_of_fmap in Hy as (p & -> & Hp).
  exists p. rewrite py_eqb_sym in Heq. split; [done|]. split; [done|].
  intros s ->. by apply py_eqb_VStr.
Qed.

(** C8. Resolving a Playlist collection de-duplicates the comma-separated
    ids before resolving them: whenever it succeeds, the returned playlists
    have pairwise different ids, and these are exactly the ids listed in the
    identifier; "A,B,A" gives 2 playlists. *)
Theorem playlist_collection_deduplicates fuel (identifier : string) (w : world)
    playlists main_channel_id uploads_playlist_id w' :
  (∀ l, set_order l ≡ₚ l) →
  extract_playlists_details_from fuel PLAYLIST (VStr identifier) w
  = (Ok (playlists, main_channel_id, uploads_playlist_id), w') →
  NoDup (playlist_id <$> playlists) ∧
  (∀ id, id ∈ playlist_id <$> playlists
         ↔ id ∈ VStr <$> py_split ","%char identifier) ∧
  (identifier = "A,B,A" → length playlists = 2).
Proof.
  intros Hperm H. unfold extract_playlists_details_from in H.
  apply M_bind_Ok in H as ([[pids m] u] & w1 & Hbranch & H).
  apply M_bind_Ok in H as (ids & w2 & Hset & H).
  apply lift_Ok in Hset as [Hset ->].
  apply M_bind_Ok in H as (ps & w3 & Hps & H).
  unfold mret, M_mret, M_ret in H. simplify_eq.
  apply list_set_Ok in Hset as [_ ->].
  apply comprehensionM_playlist_ids in Hps.
  change (String.eqb PLAYLIST USER || String.eqb PLAYLIST CHANNEL)
    with false in Hbranch.
  change (String.eqb PLAYLIST PLAYLIST) with true in Hbranch.
  cbv iota in Hbranch.
  apply M_bind_Ok in Hbranch as (first & wa & _ & Hbranch).
  apply M_bind_Ok in Hbranch as (playlist & wb & _ & Hbranch).
  unfold mret, M_mret, M_ret in Hbranch. simplify_eq.
  destruct (set_add_strings (py_split ","%char identifier) [])
    as [Hnd Hmem]; [apply NoDup_nil_2|].
  rewrite Hps. split; [|split].
  - by rewrite (Hperm _).
  - intros id. rewrite (Hperm _), Hmem. rewrite elem_of_nil. tauto.
  - intros ->. rewrite <- (length_fmap playlist_id), Hps, (Hperm _). done.
Qed.

(** *** Channel assets *)

Lemma walk_lookup files : ∀ rest here n,
  walk files here rest = Ok n → files !! (here ++ rest) = Some n.
Proof.
  induction rest as [|x rest IH]; intros here n; simpl.
  - rewrite app_nil_r. destruct (files !! here); intros; by simplify_eq.
  - destruct (files !! here) as [[|c]|]; try done.
    intros H%IH. by rewrite <- app_assoc in H.
Qed.

Lemma walk_parent files : ∀ rest here x n,
  walk files here (rest ++ [x]) = Ok n → walk files here rest = Ok Dir.
Proof.
  induction rest as [|y rest IH]; intros here x n; simpl.
  - destruct (files !! here) as [[|c]|]; done.
  - destruct (files !! here) as [[|c]|]; try done. apply IH.
Qed.

Lemma walk_child files : ∀ rest here x n,
  walk files here rest = Ok Dir →
  files !! (here ++ rest ++ [x]) = Some n →
  walk files here (rest ++ [x]) = Ok n.
Proof.
  induction rest as [|y rest IH]; intros here x n; simpl.
  - destruct (files !! here) as [[|c]|]; try done. intros _ H. by rewrite H.
  - destruct (files !! here) as [[|c]|]; try done.
    intros Hw Hl. apply IH; [done|]. by rewrite <- app_assoc.
Qed.

(** Walking never looks at paths longer than the one it resolves. *)
Lemma walk_insert_deeper files (k : path) v : ∀ rest here,
  length here + length rest < length k →
  walk (<[k := v]> files) here rest = walk files here rest.
Proof.
  induction rest as [|x rest IH]; intros here Hlen; simpl in *.
  - rewrite lookup_insert_ne; [done|]. intros ->. lia.
  - rewrite lookup_insert_ne by (intros ->; lia).
    destruct (files !! here) as [[|c]|]; try done.
    apply IH. rewrite length_app. simpl. lia.
Qed.

Lemma get_channel_json_fs id b w o w' :
  get_channel_json id b w = (o, w') → fs w' = fs w.
Proof.
  unfold get_channel_json. unfold_M. intros H. run_cases.
Qed.

(** [mkdir(exist_ok=True)] on a directory that is there changes nothing. *)
Lemma mkdir_exist_ok_existing (p : path) x (w : world) :
  stat (fs w) (p ++ [x]) = Ok Dir →
  mkdir_exist_ok (p ++ [x]) w = (Ok tt, emit (EvMkdir (p ++ [x])) w).
Proof.
  intros Hd. unfold mkdir_exist_ok, os_mkdir, is_dir.
  rewrite removelast_last, Hd.
  pose proof (walk_parent _ _ _ _ _ Hd) as Hp. unfold stat. rewrite Hp.
  apply walk_lookup in Hd. simpl in Hd. by rewrite Hd.
Qed.

(** In a directory, [mkdir(exist_ok=True)] of a name that is not a file
    succeeds and leaves every other path as it was. *)
Lemma mkdir_exist_ok_creates (p : path) x (w : world) :
  stat (fs w) p = Ok Dir →
  (∀ c, fs w !! (p ++ [x]) ≠ Some (File c)) →
  ∃ files, mkdir_exist_ok (p ++ [x]) w
           = (Ok tt, World (cache w) (remote w) files
                       (trace w ++ [EvMkdir (p ++ [x])])) ∧
           stat files (p ++ [x]) = Ok Dir ∧
           ∀ q, q ≠ p ++ [x] → files !! q = fs w !! q.
Proof.
  intros Hp Hnf. unfold mkdir_exist_ok, os_mkdir, is_dir.
  rewrite removelast_last, Hp.
  destruct (fs w !! (p ++ [x])) as [[|c]|] eqn:Hl.
  - assert (stat (fs w) (p ++ [x]) = Ok Dir) as Hd
      by (by apply walk_child).
    rewrite Hd. exists (fs w). by destruct w.
  - by destruct (Hnf c).
  - eexists. split; [done|]. split.
    + apply walk_child; [|simpl; apply lookup_insert_eq].
      unfold stat. rewrite walk_insert_deeper; [done|].
      rewrite length_app. simpl. lia.
    + intros q Hq. by apply lookup_insert_ne.
Qed.

Lemma pick_thumbnail_preferred d :
  pick_thumbnail ["medium"; "default"] (VDict d)
  = match preferred_thumbnail d with
    | Some entry => getitem entry (VStr "url")
    | None => Ok VNone
    end.
Proof.
  unfold preferred_thumbnail. simpl.
  unfold mbind, outcome_mbind, outcome_bind.
  destruct (dict_lookup d (VStr "medium")) as [e|]; simpl; [done|].
  destruct (dict_lookup d (VStr "default")) as [e|]; simpl; done.
Qed.

Lemma preferred_thumbnail_url d :
  thumbnail_set d →
  ∃ t, pick_thumbnail ["medium"; "default"] (VDict d) = Ok t.
Proof.
  intros Hwf. rewrite pick_thumbnail_preferred. unfold preferred_thumbnail.
  destruct (dict_lookup d (VStr "medium")) as [e|] eqn:Hm.
  { apply Hwf in Hm as [u ->]. eauto. }
  destruct (dict_lookup d (VStr "default")) as [e|] eqn:Hd; [|eauto].
  apply Hwf in Hd as [u ->]. eauto.
Qed.

(** C10. When the profile image of a channel is already on disk,
    [save_channel_branding] returns without error, whatever thumbnails the
    channel record lists (none at all included; each listed quality is an
    entry with a URL, as the data model has it): it obtains the channel
    record (world [w1], from the cache or the remote), calls [mkdir] on the
    per-channel directory, which is there already, and does nothing else:
    the files are as they were, and the trace gains neither a download nor a
    resize. *)
Theorem save_channel_branding_keeps_profile channels_dir (channel_id : string)
    save_banner (w : world) channel_json w1 snippet thumbnails c :
  get_channel_json (VStr channel_id) false w = (Ok channel_json, w1) →
  getitem channel_json (VStr "snippet") = Ok snippet →
  getitem snippet (VStr "thumbnails") = Ok (VDict thumbnails) →
  thumbnail_set thumbnails →
  stat (fs w) (channels_dir ++ [channel_id; "profile.jpg"]) = Ok (File c) →
  ∃ w', save_channel_branding channels_dir (VStr channel_id) save_banner w
        = (Ok tt, w') ∧
        cache w' = cache w1 ∧ remote w' = remote w1 ∧
        fs w' = fs w ∧
        trace w' = trace w1 ++ [EvMkdir (channels_dir ++ [channel_id])].
Proof.
  intros Hchannel Hsnippet Hthumbs Hwf Hfile.
  pose proof (get_channel_json_fs _ _ _ _ _ Hchannel) as Hfs.
  destruct (preferred_thumbnail_url _ Hwf) as [t Hpick].
  change [channel_id; "profile.jpg"] with ([channel_id] ++ ["profile.jpg"]) in Hfile.
  rewrite app_assoc, <- Hfs in Hfile.
  pose proof (walk_parent _ _ _ _ _ Hfile) as Hdir.
  unfold save_channel_branding. unfold_M.
  rewrite Hchannel, Hsnippet, Hthumbs, Hpick. simpl.
  pose proof (mkdir_exist_ok_existing channels_dir channel_id w1 Hdir) as Hmk.
  rewrite Hmk. unfold path_exists. simpl. rewrite Hfile. simpl.
  rewrite andb_false_r. eexists. split; [done|]. simpl. by rewrite Hfs.
Qed.

(** C9 (as amended). When the profile image of a channel is not on disk
    yet, [save_channel_branding] takes the URL of the "medium" thumbnail
    when the channel lists that quality and otherwise the URL of the
    "default" one, downloads it to the profile image and resizes that to
    100 by 100; when the channel lists neither, it fails with "Thumbnail
    not found" and downloads nothing. *)
Theorem save_channel_branding_thumbnail channels_dir (channel_id : string)
    save_banner (w : world) channel_json w1 snippet thumbnails :
  get_channel_json (VStr channel_id) false w = (Ok channel_json, w1) →
  getitem channel_json (VStr "snippet") = Ok snippet →
  getitem snippet (VStr "thumbnails") = Ok (VDict thumbnails) →
  stat (fs w) channels_dir = Ok Dir →
  (∀ c, fs w !! (channels_dir ++ [channel_id]) ≠ Some (File c)) →
  fs w !! (channels_dir ++ [channel_id; "profile.jpg"]) = None →
  let channel_dir := channels_dir ++ [channel_id] in
  let profile_path := channels_dir ++ [channel_id; "profile.jpg"] in
  match preferred_thumbnail thumbnails with
  | Some entry =>
      ∀ u, getitem entry (VStr "url") = Ok u →
           truthy u = true →
           ∃ w', save_channel_branding channels_dir (VStr channel_id) save_banner w
                 = (Ok tt, w') ∧
                 trace w' = trace w1 ++ [EvMkdir channel_dir;
                                         EvDownload u profile_path;
                                         EvResize profile_path 100 100] ∧
                 fs w' !! profile_path
                 = Some (File (Resized (Downloaded u) 100 100))
  | None =>
      ∃ w', save_channel_branding channels_dir (VStr channel_id) save_banner w
            = (Raise ThumbnailNotFound, w') ∧
            trace w' = trace w1 ++ [EvMkdir channel_dir] ∧
            fs w' !! profile_path = None
  end.
Proof.
  intros Hchannel Hsnippet Hthumbs Hroot Hnofile Hnoprofile. cbv zeta.
  pose proof (get_channel_json_fs _ _ _ _ _ Hchannel) as Hfs.
  rewrite <- Hfs in Hroot, Hnofile, Hnoprofile.
  destruct (mkdir_exist_ok_creates channels_dir channel_id w1 Hroot Hnofile)
    as (files & Hmk & Hdir & Hsame).
  change [channel_id; "profile.jpg"] with ([channel_id] ++ ["profile.jpg"]) in *.
  rewrite app_assoc in *.
  set (profile_path := (channels_dir ++ [channel_id]) ++ ["profile.jpg"]) in *.
  assert (files !! profile_path = None) as Hnone.
  { rewrite Hsame; [done|]. intros E. apply (f_equal length) in E.
    subst profile_path. rewrite !length_app in E. simpl in E. lia. }
  assert (∀ n, stat files profile_path ≠ Ok n) as Hstat.
  { intros n Hn. apply walk_lookup in Hn. simpl in Hn. congruence. }
  pose proof (pick_thumbnail_preferred thumbnails) as Hpick.
  destruct (preferred_thumbnail thumbnails) as [entry|].
  - intros u Hu Htruthy. rewrite Hu in Hpick.
    unfold save_channel_branding. unfold_M.
    rewrite Hchannel, Hsnippet, Hthumbs, Hpick. simpl.
    rewrite Hmk. unfold path_exists. simpl. fold profile_path.
    destruct (stat files profile_path) as [n| |] eqn:Hs;
      [by destruct (Hstat n)| |]; simpl;
      rewrite Htruthy, andb_false_r; simpl;
      (eexists; split; [done|]; simpl; split;
       [by rewrite <- !app_assoc
       |by rewrite lookup_alter_eq, lookup_insert_eq]).
  - unfold save_channel_branding. unfold_M.
    rewrite Hchannel, Hsnippet, Hthumbs, Hpick. simpl.
    rewrite Hmk. unfold path_exists. simpl. fold profile_path.
    destruct (stat files profile_path) as [n| |] eqn:Hs;
      [by destruct (Hstat n)| |]; simpl;
      (eexists; split; [done|]; simpl; by split).
Qed.

End Properties.

(** * Further properties of the module *)

Section Further.
Context `{Ext : Externals}.

#[local] Existing Instance M_mret.
#[local] Existing Instance M_mbind.

Ltac unfold_run :=
  unfold mbind, mret, M_mbind, M_mret, M_bind, M_ret, lift, out_of_fuel,
    outcome_mbind, outcome_ret, outcome_bind, load_json, save_json,
    requests_get, emit in *.

Ltac split_cases :=
  repeat (simplify_eq/=; try done; case_match); simplify_eq/=; try done.

Ltac miss H := rewrite H; cbn [from_option is_None negb].

(** *** What a call leaves alone *)

Lemma get_videos_loop_frame fuel pid : ∀ items tok w o w',
  get_videos_loop fuel pid items tok w = (o, w') →
  cache w' = cache w ∧ fs w' = fs w.
Proof.
  induction fuel as [|fuel IH]; intros items tok w o w'; simpl; unfold_run.
  - intros. by simplify_eq.
  - intros H. split_cases.
    match goal with H : get_videos_loop _ _ _ _ _ = _ |- _ => apply IH in H end.
    done.
Qed.

Lemma get_channel_playlists_loop_frame fuel cid fname : ∀ items tok w o w',
  get_channel_playlists_loop fuel cid fname items tok w = (o, w') →
  (∀ k, k ≠ fname → cache w' !! k = cache w !! k) ∧ fs w' = fs w.
Proof.
  induction fuel as [|fuel IH]; intros items tok w o w'; simpl; unfold_run.
  - intros. by simplify_eq.
  - intros H. split_cases;
      try (match goal with
           | H : get_channel_playlists_loop _ _ _ _ _ _ = _ |- _ =>
               apply IH in H as [Hc Hf]
           end;
           simpl in *; split; [|done];
           intros k Hk; rewrite Hc by done; by rewrite lookup_insert_ne);
      (split; [|done]); intros k Hk; by rewrite lookup_insert_ne.
Qed.

(** X1. An accessor writes no cache key but its own, and never touches the
    channel-assets directory, whatever the remote answers and whether the
    call returns or raises. *)
Theorem call_writes_own_key_only (a : accessor) fuel (id : value) (w : world)
    o w' :
  call a fuel id w = (o, w') →
  (∀ k, k ≠ accessor_key a id → cache w' !! k = cache w !! k) ∧
  fs w' = fs w.
Proof.
  destruct a; simpl;
    unfold get_channel_json, get_channel_playlists_json, get_playlist_json,
      get_videos_json; unfold_run; intros H.
  - split_cases; split; try done; intros k Hk; by rewrite lookup_insert_ne.
  - destruct (is_None _) eqn:Hn; simpl in H; [|by simplify_eq].
    destruct (get_channel_playlists_loop _ _ _ _ _ _) as [[l| |] w1] eqn:Hl;
      simplify_eq; by eapply get_channel_playlists_loop_frame.
  - split_cases; split; try done; intros k Hk; by rewrite lookup_insert_ne.
  - destruct (is_None _) eqn:Hn; simpl in H; [|by simplify_eq].
    destruct (get_videos_loop _ _ _ _ _) as [[l| |] w1] eqn:Hl;
      simplify_eq/=; apply get_videos_loop_frame in Hl as [Hc1 Hf1];
      (split; [|done]); intros k Hk; rewrite ?lookup_insert_ne by done;
      by rewrite Hc1.
Qed.

(** X2. The accessors that persist once ([getChannel], [getPlaylist],
    [getPlaylistVideos]) write nothing unless they return: a call that does
    not return a value leaves the whole cache as it was. *)
Theorem failed_call_keeps_cache (a : accessor) fuel (id : value) (w : world)
    o w' :
  a ≠ getChannelPlaylists →
  call a fuel id w = (o, w') →
  (∀ v, o ≠ Ok v) →
  cache w' = cache w.
Proof.
  intros Ha. destruct a; try done; simpl;
    unfold get_channel_json, get_playlist_json, get_videos_json; unfold_run;
    intros H Hfail.
  - split_cases; by destruct (Hfail _ eq_refl).
  - split_cases; by destruct (Hfail _ eq_refl).
  - destruct (is_None _) eqn:Hn; simpl in H;
      [|simplify_eq; by destruct (Hfail _ eq_refl)].
    destruct (get_videos_loop _ _ _ _ _) as [[l| |] w1] eqn:Hl;
      simplify_eq/=; [by destruct (Hfail _ eq_refl)|..];
      by apply get_videos_loop_frame in Hl as [Hc1 _].
Qed.

(** *** Reuse of cached records *)

(** X3. The channel cache key does not record how the channel was looked
    up: after a lookup of [x] (by username or by id) that returned a record,
    that is a value other than the JSON null ([None]), a lookup of [x] in
    the other mode returns the same record from the cache and leaves the
    world as it was, without a request. *)
Theorem channel_cache_ignores_lookup_mode (x : value) (for_username other : bool)
    (w : world) v w' :
  get_channel_json x for_username w = (Ok v, w') →
  v ≠ VNone →
  get_channel_json x other w' = (Ok v, w').
Proof.
  intros H Hv.
  apply (call_hit (getChannel other) x 0); [|exact Hv].
  apply (call_stores (getChannel for_username) x 0 w). exact H.
Qed.

(** X4. A channel-playlists listing interrupted after at least one page is
    taken for complete afterwards: the interrupted call raises, and every
    later call returns the pages fetched before the failure, without a
    request, whatever the remote would answer by then. *)
Theorem partial_listing_taken_for_complete (id : value) pages e s' fuel
    (w : world) :
  cache w !! accessor_key getChannelPlaylists id = None →
  page_stream (channel_playlists_request id) (remote w) VNone pages (Broken e) s' →
  pages ≠ [] →
  S (length pages) ≤ fuel →
  ∃ w', get_channel_playlists_json fuel id w = (Raise e, w') ∧
        ∀ fuel', get_channel_playlists_json fuel' id w'
                 = (Ok (VList (concat pages)), w').
Proof.
  intros Hmiss Hs Hne Hfuel. simpl in Hmiss.
  edestruct (get_channel_playlists_loop_stream id
               ("channel_" +:+ py_str id +:+ "_playlists") _ _ _ _ _ Hs
               fuel [] w) as (toks & Hrun & Hlen); [done..|].
  unfold get_channel_playlists_json at 1. unfold_run. miss Hmiss; rewrite Hrun.
  simpl. eexists. split; [done|].
  intros fuel'. apply (call_hit getChannelPlaylists id fuel'); [|done]. simpl.
  destruct pages; [done|]. apply lookup_insert_eq.
Qed.

(** *** Failing lookups *)

(** X5. On a cache miss, a channel or playlist lookup whose request fails
    (the transport gives up, or the status is a client or server error)
    raises that failure after this one request and writes nothing. *)
Theorem failed_lookup_raises (a : accessor) fuel (id : value) (w : world)
    r e s' :
  a ≠ getChannelPlaylists →
  a ≠ getPlaylistVideos →
  cache w !! accessor_key a id = None →
  respond (remote w) (lookup_request a id) = (r, s') →
  failure_of r = Some e →
  call a fuel id w
  = (Raise e,
     World (cache w) s' (fs w) (trace w ++ [EvRequest (lookup_request a id)])).
Proof.
  intros Ha1 Ha2 Hmiss Hr Hf. destruct a; try done; simpl in *;
    unfold get_channel_json, get_playlist_json; unfold_run;
    miss Hmiss;
    [fold (channel_request id byUsername)|fold (playlist_request id)];
    rewrite Hr;
    apply failure_of_Some in Hf as [[-> ->]|(resp & -> & ->)]; done.
Qed.

(** X6. "Not found": on a cache miss, a channel or playlist lookup answered
    with an empty "items" array raises [IndexError] after this one request
    and writes nothing; answered without "items" at all, [KeyError]. *)
Theorem unknown_id_not_found (a : accessor) fuel (id : value) (w : world)
    resp body s' :
  a ≠ getChannelPlaylists →
  a ≠ getPlaylistVideos →
  cache w !! accessor_key a id = None →
  respond (remote w) (lookup_request a id) = (Some resp, s') →
  raise_for_status resp = Ok tt →
  json_body resp = Some (VDict body) →
  let after := World (cache w) s' (fs w)
                 (trace w ++ [EvRequest (lookup_request a id)]) in
  (dict_lookup body (VStr "items") = Some (VList []) →
   call a fuel id w = (Raise IndexError, after)) ∧
  (dict_lookup body (VStr "items") = None →
   call a fuel id w = (Raise KeyError, after)).
Proof.
  intros Ha1 Ha2 Hmiss Hr Hs Hb after. subst after.
  destruct a; try done; simpl in *;
    unfold get_channel_json, get_playlist_json; unfold_run;
    miss Hmiss;
    [fold (channel_request id byUsername)|fold (playlist_request id)];
    rewrite Hr, Hs; unfold json; rewrite Hb; simpl;
    (split; intros ->; done).
Qed.

(** *** The collection resolver *)

(** X7. Resolving a User or Channel collection whose channel lookup comes
    back with an empty "items" array raises [IndexError] after that one
    request: the playlists of the channel are never asked for, and nothing
    is cached. *)
Theorem unknown_channel_aborts_resolution fuel collection_type
    (youtube_id : value) (w : world) resp body s' :
  collection_type = USER ∨ collection_type = CHANNEL →
  let rq := channel_request youtube_id (String.eqb collection_type USER) in
  cache w !! ("channel_" +:+ py_str youtube_id) = None →
  respond (remote w) rq = (Some resp, s') →
  raise_for_status resp = Ok tt →
  json_body resp = Some (VDict body) →
  dict_lookup body (VStr "items") = Some (VList []) →
  extract_playlists_details_from fuel collection_type youtube_id w
  = (Raise IndexError,
     World (cache w) s' (fs w) (trace w ++ [EvRequest rq])).
Proof.
  intros Hct rq Hmiss Hr Hs Hb Hitems. subst rq.
  assert (get_channel_json youtube_id (String.eqb collection_type USER) w
          = (Raise IndexError,
             World (cache w) s' (fs w)
               (trace w ++ [EvRequest (channel_request youtube_id
                                        (String.eqb collection_type USER))])))
    as Hlookup.
  { unfold get_channel_json. unfold_run. miss Hmiss.
    fold (channel_request youtube_id (String.eqb collection_type USER)).
    rewrite Hr, Hs. unfold json. rewrite Hb. simpl. by rewrite Hitems. }
  unfold extract_playlists_details_from.
  destruct Hct as [-> | ->];
    [change (String.eqb USER USER || String.eqb USER CHANNEL) with true;
     change (String.eqb USER USER) with true in *
    |change (String.eqb CHANNEL USER || String.eqb CHANNEL CHANNEL) with true;
     change (String.eqb CHANNEL USER) with false in *];
    cbv iota; unfold_run; by rewrite Hlookup.
Qed.

(** X8. A collection type other than user, channel and playlist raises
    [NotImplementedError] at once: no request, no cache access, the world
    unchanged. *)
Theorem unsupported_collection_type fuel collection_type (youtube_id : value)
    (w : world) :
  collection_type ≠ USER →
  collection_type ≠ CHANNEL →
  collection_type ≠ PLAYLIST →
  extract_playlists_details_from fuel collection_type youtube_id w
  = (Raise NotImplementedError, w).
Proof.
  intros Hu Hc Hp. unfold extract_playlists_details_from.
  apply String.eqb_neq in Hu, Hc, Hp. rewrite Hu, Hc, Hp. simpl.
  by unfold_run.
Qed.

(** X9. For a Playlist collection that resolves, no uploads playlist is
    returned, and the main channel is the "channelId" of the first listed
    playlist, whose record is the first thing looked up. *)
Theorem playlist_collection_main_channel fuel (identifier : string) (w : world)
    playlists main_channel_id uploads_playlist_id w' :
  extract_playlists_details_from fuel PLAYLIST (VStr identifier) w
  = (Ok (playlists, main_channel_id, uploads_playlist_id), w') →
  uploads_playlist_id = VNone ∧
  ∃ first rest playlist_json w1,
    py_split ","%char identifier = first :: rest ∧
    get_playlist_json (VStr first) w = (Ok playlist_json, w1) ∧
    snippet_field playlist_json "channelId" = Ok main_channel_id.
Proof.
  intros H. unfold extract_playlists_details_from in H.
  apply M_bind_Ok in H as ([[pids m] u] & w1 & Hbranch & H).
  apply M_bind_Ok in H as (ids & w2 & Hset & H).
  apply lift_Ok in Hset as [Hset ->].
  apply M_bind_Ok in H as (ps & w3 & Hps & H).
  unfold mret, M_mret, M_ret in H. simplify_eq.
  change (String.eqb PLAYLIST USER || String.eqb PLAYLIST CHANNEL)
    with false in Hbranch.
  change (String.eqb PLAYLIST PLAYLIST) with true in Hbranch.
  cbv iota in Hbranch.
  apply M_bind_Ok in Hbranch as (first & wa & Hfirst & Hbranch).
  apply M_bind_Ok in Hbranch as (playlist & wb & Hplaylist & Hbranch).
  unfold mret, M_mret, M_ret in Hbranch. simplify_eq.
  split; [done|].
  apply lift_Ok in Hfirst as [Hfirst ->].
  destruct (py_split ","%char identifier) as [|name rest] eqn:Hsplit;
    [done|].
  simpl in Hfirst. unfold seq_index in Hfirst. simpl in Hfirst.
  replace (0 <? Z.pos (Pos.of_succ_nat (length (VStr <$> rest))))%Z
    with true in Hfirst by (symmetry; apply Z.ltb_lt; lia).
  simpl in Hfirst. simplify_eq.
  unfold Playlist_from_id in Hplaylist.
  apply M_bind_Ok in Hplaylist as (pj & wp & Hpj & Hplaylist).
  apply lift_Ok in Hplaylist as [Hplaylist ->].
  apply outcome_bind_Ok in Hplaylist as (t & _ & Hplaylist).
  apply outcome_bind_Ok in Hplaylist as (d & _ & Hplaylist).
  apply outcome_bind_Ok in Hplaylist as (c & Hc & Hplaylist).
  apply outcome_bind_Ok in Hplaylist as (n & _ & Hplaylist).
  apply outcome_bind_Ok in Hplaylist as (sl & _ & Hplaylist).
  simplify_eq. simpl.
  exists name, rest, pj, wp. by repeat split.
Qed.

Lemma set_add_sound l : ∀ acc y,
  y ∈ fold_left set_add l acc → y ∈ acc ∨ y ∈ l.
Proof.
  induction l as [|z l IH]; intros acc y Hy; simpl in *; [by left|].
  apply IH in Hy as [Hy|Hy]; [|right; apply elem_of_cons; by right].
  unfold set_add in Hy. destruct (existsb (py_eqb z) acc); [by left|].
  apply elem_of_app in Hy as [Hy|Hy]; [by left|].
  apply list_elem_of_singleton in Hy as ->. right. apply elem_of_cons. by left.
Qed.

Lemma all_strings (l : list value) :
  (∀ x, x ∈ l → ∃ s, x = VStr s) → ∃ names, l = VStr <$> names.
Proof.
  induction l as [|x l IH]; intros H; [by exists []|].
  destruct (H x) as [s ->]; [apply elem_of_cons; by left|].
  destruct IH as [names ->].
  { intros y Hy. apply H. apply elem_of_cons. by right. }
  by exists (s :: names).
Qed.

(** X10. The playlists of a User or Channel collection that resolves are
    those of the channel whose record the lookup gave, under the channel id
    that record holds: every returned playlist id is an id of the listing or
    the uploads id, every id of the listing is among the returned ones, and
    when all these ids are strings no id is returned twice, be the uploads
    playlist listed or not. *)
Theorem channel_collection_playlists fuel collection_type (youtube_id : value)
    (w : world) playlists main_channel_id uploads_playlist_id w' :
  (∀ l, set_order l ≡ₚ l) →
  collection_type = USER ∨ collection_type = CHANNEL →
  extract_playlists_details_from fuel collection_type youtube_id w
  = (Ok (playlists, main_channel_id, uploads_playlist_id), w') →
  ∃ channel_json w1 listing w2 listed,
    get_channel_json youtube_id (String.eqb collection_type USER) w
    = (Ok channel_json, w1) ∧
    getitem channel_json (VStr "id") = Ok main_channel_id ∧
    get_channel_playlists_json fuel main_channel_id w1 = (Ok listing, w2) ∧
    listed_ids listing = Ok listed ∧
    (∀ id, id ∈ playlist_id <$> playlists →
           id ∈ listed ∨ id = uploads_playlist_id) ∧
    (∀ id, id ∈ listed →
           ∃ p, p ∈ playlists ∧ py_eqb (playlist_id p) id = true) ∧
    ((∀ id, id ∈ listed ++ [uploads_playlist_id] → ∃ s, id = VStr s) →
     NoDup (playlist_id <$> playlists)).
Proof.
  intros Hperm Hct H. unfold extract_playlists_details_from in H.
  apply M_bind_Ok in H as ([[pids m] u] & w1 & Hbranch & H).
  apply M_bind_Ok in H as (ids & w2 & Hset & H).
  apply lift_Ok in Hset as [Hset ->].
  apply M_bind_Ok in H as (ps & w3 & Hps & H).
  unfold mret, M_mret, M_ret in H. simplify_eq.
  apply list_set_Ok in Hset as [Hhash ->].
  apply comprehensionM_playlist_ids in Hps.
  assert (String.eqb collection_type USER || String.eqb collection_type CHANNEL
          = true) as Htag by (by destruct Hct as [-> | ->]).
  rewrite Htag in Hbranch. clear Htag.
  apply M_bind_Ok in Hbranch as (channel_json & wa & Hchannel & Hbranch).
  apply M_bind_Ok in Hbranch as (main & wb & Hmain & Hbranch).
  apply M_bind_Ok in Hbranch as (listing & wc & Hlisting & Hbranch).
  apply M_bind_Ok in Hbranch as (listed & wd & Hlisted & Hbranch).
  apply M_bind_Ok in Hbranch as (uploads & we & Huploads & Hbranch).
  apply M_bind_Ok in Hbranch as (last & wf & Hlast & Hbranch).
  unfold mret, M_mret, M_ret in Hbranch. simplify_eq.
  apply lift_Ok in Hlast as [Hlast _]. rewrite seq_index_last in Hlast.
  simplify_eq.
  apply lift_Ok in Hmain as [Hmain ->].
  apply lift_Ok in Hlisted as [Hlisted ->].
  exists channel_json, wa, listing, wc, listed.
  split; [by destruct (String.eqb collection_type USER)|].
  split; [done|]. split; [done|]. split; [done|].
  rewrite Hps. split; [|split].
  - intros id Hid. rewrite (Hperm _) in Hid.
    apply set_add_sound in Hid as [Hid|Hid]; [by apply elem_of_nil in Hid|].
    apply elem_of_app in Hid as [Hid|Hid]; [by left|].
    right. by apply list_elem_of_singleton in Hid.
  - intros id Hid.
    rewrite forallb_app in Hhash. apply andb_true_iff in Hhash as [Hhash _].
    rewrite forallb_forall in Hhash.
    destruct (set_add_covers (listed ++ [uploads_playlist_id]) [] id)
      as (y & Hy & Heq).
    { left. split; [apply elem_of_app; by left|].
      apply Hhash. by apply list_elem_of_In. }
    rewrite <- (Hperm _), <- Hps in Hy.
    apply list_elem_of_fmap in Hy as (p & -> & Hp).
    exists p. by rewrite py_eqb_sym.
  - intros Hstr. apply all_strings in Hstr as [names ->].
    rewrite (Hperm _). by apply set_add_strings, NoDup_nil_2.
Qed.

(** *** The credential check *)

Lemma getitem_not_OutOfFuel v k : getitem v k ≠ OutOfFuel.
Proof.
  unfold getitem, seq_index. repeat case_match; done.
Qed.

Lemma raise_for_status_cases resp :
  raise_for_status resp = Ok tt ∨ raise_for_status resp = Raise HTTPError.
Proof. unfold raise_for_status. case_match; auto. Qed.

Lemma credentials_ok_answered (w : world) resp s' :
  respond (remote w) search_request = (Some resp, s') →
  ∃ b, credentials_ok w
       = (Ok b, World (cache w) s' (fs w) (trace w ++ [EvRequest search_request])) ∧
       (b = true ↔
        raise_for_status resp = Ok tt ∧
        ∃ body items, json_body resp = Some body ∧
                      getitem body (VStr "items") = Ok items ∧
                      truthy items = true).
Proof.
  intros Hr. unfold credentials_ok. unfold_run.
  fold search_request. rewrite Hr. unfold try_except, json.
  destruct (raise_for_status_cases resp) as [Hs|Hs]; rewrite Hs; simpl.
  - destruct (json_body resp) as [body|] eqn:Hb; simpl.
    + destruct (getitem body (VStr "items")) as [items| |] eqn:Hi; simpl.
      * eexists. split; [done|]. split.
        -- intros Ht. split; [done|]. by exists body, items.
        -- intros (_ & body' & items' & ? & ? & ?). simplify_eq; congruence.
      * eexists. split; [done|]. split; [done|].
        intros (_ & body' & items' & ? & ? & ?). simplify_eq; congruence.
      * by destruct (getitem_not_OutOfFuel body (VStr "items")).
    + eexists. split; [done|]. split; [done|].
      intros (_ & body' & items' & ? & ? & ?). by simplify_eq.
  - eexists. split; [done|]. split; [done|]. by intros [? _].
Qed.

Lemma credentials_ok_transport_failure (w : world) s' :
  respond (remote w) search_request = (None, s') →
  credentials_ok w
  = (Raise RequestException,
     World (cache w) s' (fs w) (trace w ++ [EvRequest search_request])).
Proof.
  intros Hr. unfold credentials_ok. unfold_run.
  fold search_request. by rewrite Hr.
Qed.

(** X11. [credentials_ok] sends one search request and leaves the cache
    alone.  Once the request is answered it never raises: it returns [True]
    exactly when the status is no client or server error and the body is
    JSON with a non-empty "items", and [False] for every other answer.  Only
    a transport failure escapes, the request being made outside the
    [try]. *)
Theorem credentials_ok_outcome (w : world) r s' :
  respond (remote w) search_request = (r, s') →
  ∃ o, credentials_ok w
       = (o, World (cache w) s' (fs w) (trace w ++ [EvRequest search_request])) ∧
       match r with
       | None => o = Raise RequestException
       | Some resp =>
           ∃ b, o = Ok b ∧
                (b = true ↔
                 raise_for_status resp = Ok tt ∧
                 ∃ body items, json_body resp = Some body ∧
                               getitem body (VStr "items") = Ok items ∧
                               truthy items = true)
       end.
Proof.
  intros Hr. destruct r as [resp|].
  - destruct (credentials_ok_answered w resp s' Hr) as (b & Hrun & Hb).
    eexists. split; [exact Hrun|]. by exists b.
  - eexists. split; [by apply credentials_ok_transport_failure|done].
Qed.

(** *** The author resolver *)

Lemma retrieve_videos_loop_frame fuel videos_ids : ∀ req_items tok w o w',
  retrieve_videos_loop fuel videos_ids req_items tok w = (o, w') →
  cache w' = cache w ∧ fs w' = fs w.
Proof.
  induction fuel as [|fuel IH]; intros req_items tok w o w'; simpl; unfold_run.
  - intros. by simplify_eq.
  - intros H. split_cases.
    match goal with H : retrieve_videos_loop _ _ _ _ _ = _ |- _ =>
      apply IH in H end.
    done.
Qed.

Lemma authors_loop_frame fuel videos_ids : ∀ intervs items w o w',
  authors_loop fuel videos_ids intervs items w = (o, w') →
  cache w' = cache w ∧ fs w' = fs w.
Proof.
  induction intervs as [|interv intervs IH]; intros items w o w'; simpl;
    unfold retrieve_videos_for; unfold_run.
  - intros. by simplify_eq.
  - destruct (retrieve_videos_loop _ _ _ _ _) as [[m| |] w1] eqn:Hl;
      intros H; apply retrieve_videos_loop_frame in Hl as [Hc Hf];
      simplify_eq; try done.
    apply IH in H as [Hc' Hf']. split; congruence.
Qed.

(** X12. The author resolver writes the cache at the very end or not at
    all: when it returns a map, the cache differs from the one it started
    with by that map under "videos_channels" only; when it does not return
    (a failing request, a malformed item), the cache is as it was, the
    chunks already fetched are lost. *)
Theorem get_videos_authors_info_all_or_nothing fuel (videos_ids : list value)
    (w : world) o w' :
  cache w !! "videos_channels" = None →
  get_videos_authors_info fuel videos_ids w = (o, w') →
  match o with
  | Ok v => cache w' = <["videos_channels" := v]> (cache w)
  | _ => cache w' = cache w
  end.
Proof.
  intros Hmiss. unfold get_videos_authors_info. unfold_run. miss Hmiss.
  destruct (authors_loop _ _ _ _ _) as [[m| |] w1] eqn:Hl; intros H;
    apply authors_loop_frame in Hl as [Hc Hf]; simplify_eq/=; congruence.
Qed.

Lemma range_from_lookup stop step : ∀ fuel start i j,
  range_from fuel start stop step !! i = Some j →
  j = start + i * step ∧ j < stop.
Proof.
  induction fuel as [|fuel IH]; intros start i j; simpl; [done|].
  destruct (Nat.ltb_spec start stop); [|done].
  destruct i as [|i]; simpl.
  - intros; simplify_eq. lia.
  - intros H'. apply IH in H' as [-> ?]. lia.
Qed.

Lemma length_concat_le {A} n (l : list (list A)) :
  Forall (λ c, length c ≤ n) l → length (concat l) ≤ n * length l.
Proof.
  induction 1 as [|c l Hc _ IH]; simpl; [lia|]. rewrite length_app. lia.
Qed.

(** X13. The resolver asks for the ids in the least number of chunks that
    50 per chunk allows: the number of chunks is the length divided by 50,
    rounded up, and every chunk but the last holds exactly 50 ids. *)
Theorem chunks_of_count (videos_ids : list value) :
  let chunks := chunks_of videos_ids in
  length videos_ids ≤ 50 * length chunks ∧
  50 * length chunks < length videos_ids + 50 ∧
  ∀ i chunk, chunks !! i = Some chunk →
             S i < length chunks →
             length chunk = 50.
Proof.
  intros chunks.
  destruct (chunks_of_partition videos_ids) as [Hcat Hsz].
  fold chunks in Hcat, Hsz.
  assert (∀ i chunk, chunks !! i = Some chunk →
            i * 50 < length videos_ids ∧
            chunk = py_slice videos_ids (i * 50) (i * 50 + 50)) as Hnth.
  { intros i chunk Hi. subst chunks. unfold chunks_of in Hi.
    rewrite list_lookup_fmap in Hi.
    destruct (py_range 0 (length videos_ids) MAX_VIDEOS_PER_REQUEST !! i)
      as [j|] eqn:Hj; [|done].
    apply range_from_lookup in Hj as [-> Hlt]. simpl in *.
    unfold MAX_VIDEOS_PER_REQUEST in *. by simplify_eq. }
  split; [|split].
  - rewrite <- Hcat at 1. apply length_concat_le.
    eapply Forall_impl; [exact Hsz|]. simpl.
    unfold MAX_VIDEOS_PER_REQUEST. lia.
  - destruct (length chunks) as [|k] eqn:Hk; [lia|].
    destruct (lookup_lt_is_Some_2 chunks k) as [chunk Hchunk]; [lia|].
    apply Hnth in Hchunk as [Hlt _]. lia.
  - intros i chunk Hi Hnext.
    destruct (lookup_lt_is_Some_2 chunks (S i)) as [next Hn]; [done|].
    apply Hnth in Hn as [Hlt _]. apply Hnth in Hi as [_ ->].
    unfold py_slice. rewrite length_take, length_drop. lia.
Qed.

Lemma py_join_non_str sep (l : list value) v :
  v ∈ l → (∀ s, v ≠ VStr s) → py_join sep l = Raise TypeError.
Proof.
  intros Hv Hns. induction l as [|x l IH]; [by apply elem_of_nil in Hv|].
  apply elem_of_cons in Hv as [->|Hv].
  - destruct x; simpl; try done. by destruct (Hns s).
  - specialize (IH Hv). destruct x; simpl; try done.
    destruct l as [|y l]; [by apply elem_of_nil in Hv|].
    by rewrite IH.
Qed.

(** X14. On a cache miss (no "videos_channels" entry), an id that is not a
    string among the first 50 makes the resolver raise [TypeError] before
    anything is sent: no request, no cache write, the world unchanged.  (On
    a hit the resolver returns the cached map and raises nothing.) *)
Theorem non_string_id_raises fuel (videos_ids : list value) (w : world) i v :
  cache w !! "videos_channels" = None →
  0 < fuel →
  i < 50 →
  videos_ids !! i = Some v →
  (∀ s, v ≠ VStr s) →
  get_videos_authors_info fuel videos_ids w = (Raise TypeError, w).
Proof.
  intros Hmiss Hfuel Hi Hv Hns.
  destruct videos_ids as [|x ids]; [done|].
  set (chunk := py_slice (x :: ids) 0 (0 + MAX_VIDEOS_PER_REQUEST)).
  assert (py_join "," chunk = Raise TypeError) as Hj.
  { apply (py_join_non_str "," _ v); [|done].
    subst chunk. unfold py_slice, MAX_VIDEOS_PER_REQUEST.
    apply list_elem_of_lookup. exists i.
    rewrite lookup_take_lt by lia. by rewrite drop_0. }
  assert (retrieve_videos_for fuel chunk w = (Raise TypeError, w)) as Hr.
  { destruct fuel as [|fuel]; [lia|].
    unfold retrieve_videos_for. cbn [retrieve_videos_loop]. unfold_run.
    by rewrite Hj. }
  unfold get_videos_authors_info. unfold_run. miss Hmiss.
  change (py_range 0 (length (x :: ids)) MAX_VIDEOS_PER_REQUEST)
    with (0 :: range_from (length ids) (0 + MAX_VIDEOS_PER_REQUEST)
                 (length (x :: ids)) MAX_VIDEOS_PER_REQUEST).
  cbn [authors_loop]. fold chunk. unfold_run. by rewrite Hr.
Qed.

(** X15. Asked about no video at all, the resolver sends nothing, returns
    the empty map and caches it; from then on every call, whatever ids it
    is given, returns the empty map without a request. *)
Theorem no_ids_caches_empty_map fuel (w : world) :
  cache w !! "videos_channels" = None →
  let w1 := World (<["videos_channels" := VDict []]> (cache w)) (remote w) (fs w)
              (trace w ++ [EvSave "videos_channels" (VDict [])]) in
  get_videos_authors_info fuel [] w = (Ok (VDict []), w1) ∧
  ∀ fuel' videos_ids,
    get_videos_authors_info fuel' videos_ids w1 = (Ok (VDict []), w1).
Proof.
  intros Hmiss w1. split.
  - unfold get_videos_authors_info. unfold_run. by miss Hmiss.
  - intros fuel' videos_ids. unfold get_videos_authors_info. unfold_run.
    subst w1. simpl. by rewrite lookup_insert_eq.
Qed.

Lemma as_int_py_eqb a x c :
  as_int a = Some x →
  py_eqb a c = match as_int c with Some y => (x =? y)%Z | None => false end.
Proof. destruct a, c; simpl; intros; by simplify_eq. Qed.

(** Python's [==] on hashable values is an equivalence. *)
Lemma py_eqb_trans a b c :
  py_eqb a b = true → py_eqb a c = py_eqb b c.
Proof.
  intros Hab.
  destruct (as_int a) as [x|] eqn:Ha.
  - rewrite (as_int_py_eqb a x b Ha) in Hab.
    destruct (as_int b) as [y|] eqn:Hb; [|done].
    apply Z.eqb_eq in Hab as <-.
    by rewrite (as_int_py_eqb a x c Ha), (as_int_py_eqb b x c Hb).
  - destruct a, b; simpl in *; try done.
    apply String.eqb_eq in Hab. by subst.
Qed.

(** Reading a dictionary after an assignment. *)
Lemma dict_lookup_set d k v k' :
  dict_lookup (dict_set d k v) k'
  = if py_eqb k k' then Some v else dict_lookup d k'.
Proof.
  induction d as [|[k0 v0] d IH]; simpl; [done|].
  destruct (py_eqb k0 k) eqn:H0; simpl.
  - rewrite <- (py_eqb_trans k0 k k' H0). by destruct (py_eqb k0 k').
  - rewrite IH. destruct (py_eqb k0 k') eqn:H1; [|done].
    destruct (py_eqb k k') eqn:H2; [|done].
    rewrite (py_eqb_trans k0 k' k H1), py_eqb_sym, H2 in H0. done.
Qed.

Lemma add_author_Ok acc item acc' :
  add_author acc item = Ok acc' →
  ∃ id c t, getitem item (VStr "id") = Ok id ∧
            snippet_field item "channelId" = Ok c ∧
            snippet_field item "channelTitle" = Ok t ∧
            hashable id = true ∧
            acc' = dict_set acc id (VDict [(VStr "channelId", c);
                                           (VStr "channelTitle", t)]).
Proof.
  unfold add_author. intros H.
  apply outcome_bind_Ok in H as (id & Hid & H).
  apply outcome_bind_Ok in H as (c & Hc & H).
  apply outcome_bind_Ok in H as (t & Ht & H).
  destruct (hashable id) eqn:Hh; [|done]. simplify_eq.
  by exists id, c, t.
Qed.

Lemma for_each_add_author_other items : ∀ acc m k,
  for_each add_author items acc = Ok m →
  (∀ item id, item ∈ items → getitem item (VStr "id") = Ok id →
              py_eqb id k = false) →
  dict_lookup m k = dict_lookup acc k.
Proof.
  induction items as [|item items IH]; intros acc m k H Hother; simpl in H.
  - by simplify_eq.
  - apply outcome_bind_Ok in H as (acc1 & H1 & H).
    apply add_author_Ok in H1 as (id & c & t & Hid & _ & _ & _ & ->).
    rewrite (IH _ _ _ H).
    + rewrite dict_lookup_set, (Hother item id); [done| |done].
      apply elem_of_cons. by left.
    + intros item' id' Hin. apply Hother, elem_of_cons. by right.
Qed.

(** X16. The author map is keyed by video id and the last answer wins: after
    the items of a lookup have been folded into the map, the entry under the
    id of an item is the "channelId" and "channelTitle" of that item,
    provided no later item carries the same id; and an id no item carries
    keeps the entry it had. *)
Theorem author_map_last_item_wins items front item back acc m id :
  for_each add_author items acc = Ok m →
  items = front ++ item :: back →
  getitem item (VStr "id") = Ok id →
  (∀ later id', later ∈ back → getitem later (VStr "id") = Ok id' →
                py_eqb id' id = false) →
  (∃ c t, snippet_field item "channelId" = Ok c ∧
          snippet_field item "channelTitle" = Ok t ∧
          dict_lookup m id
          = Some (VDict [(VStr "channelId", c); (VStr "channelTitle", t)])) ∧
  (∀ k, (∀ item' id', item' ∈ items → getitem item' (VStr "id") = Ok id' →
                      py_eqb id' k = false) →
        dict_lookup m k = dict_lookup acc k).
Proof.
  intros Hm -> Hid Hlast. split.
  - rewrite for_each_app in Hm.
    apply outcome_bind_Ok in Hm as (acc0 & _ & Hm). simpl in Hm.
    apply outcome_bind_Ok in Hm as (acc1 & H1 & Hm).
    apply add_author_Ok in H1 as (id1 & c & t & Hid1 & Hc & Ht & Hh & ->).
    assert (id1 = id) as -> by congruence.
    exists c, t. split; [done|]. split; [done|].
    rewrite (for_each_add_author_other _ _ _ _ Hm Hlast).
    by rewrite dict_lookup_set, py_eqb_refl.
  - intros k Hk. by eapply for_each_add_author_other.
Qed.

(** *** The deleted-video filter *)

(** X17. [skip_deleted_videos] reads the description only when the title
    is not "Deleted video": an item titled "Deleted video" is dropped even
    without a description, while an item with another title and no
    description raises [KeyError], as does an item without a title. *)
Theorem skip_deleted_videos_missing_fields (fields : list (value * value)) :
  let item := VDict [(VStr "snippet", VDict fields)] in
  dict_lookup fields (VStr "description") = None →
  match dict_lookup fields (VStr "title") with
  | None => skip_deleted_videos item = Raise KeyError
  | Some title =>
      skip_deleted_videos item
      = if py_eqb title (VStr "Deleted video") then Ok false else Raise KeyError
  end.
Proof.
  intros item Hd. unfold skip_deleted_videos, item.
  unfold mbind, outcome_mbind, outcome_bind. simpl.
  destruct (dict_lookup fields (VStr "title")) as [title|]; [|done].
  destruct (py_eqb title (VStr "Deleted video")); simpl; [done|].
  by rewrite Hd.
Qed.

(** *** Playlists as dictionaries *)

Lemma str_replace_spec old new s :
  String.length (str_replace old new s) = String.length s ∧
  (old ≠ new →
   ∀ n, String.get n (str_replace old new s) ≠ Some old) ∧
  (∀ n c, String.get n s = Some c → c ≠ old →
          String.get n (str_replace old new s) = Some c).
Proof.
  induction s as [|c s (IHlen & IHno & IHkeep)]; simpl.
  - split; [done|]. split; [by intros _ []|]. intros [|n] c; done.
  - split; [by rewrite IHlen|]. split.
    + intros Hne [|n]; [|by apply IHno].
      destruct (Ascii.eqb_spec c old); intros ?; simplify_eq.
    + intros [|n] c' Hget Hc; [|by apply IHkeep].
      simplify_eq. by destruct (Ascii.eqb_spec c' old).
Qed.

Lemma str_replace_old old new s n :
  String.get n s = Some old →
  String.get n (str_replace old new s) = Some new.
Proof.
  revert n. induction s as [|c s IH]; intros [|n]; simpl; try done.
  - intros ?; simplify_eq. by rewrite Ascii.eqb_refl.
  - apply IH.
Qed.

(** X18. In the dictionary of a playlist the "slug" is the playlist's slug
    with every underscore turned into a hyphen: it has the same length, has
    a hyphen wherever the slug has an underscore, holds no underscore, and
    agrees with the slug everywhere else; the other five fields are the
    playlist's own. *)
Theorem Playlist_dict_slug (self : Playlist) :
  ∃ hyphenated,
    getitem (Playlist_dict self) (VStr "slug") = Ok (VStr hyphenated) ∧
    String.length hyphenated = String.length (slug self) ∧
    (∀ n, String.get n (slug self) = Some "_"%char →
          String.get n hyphenated = Some "-"%char) ∧
    (∀ n, String.get n hyphenated ≠ Some "_"%char) ∧
    (∀ n c, String.get n (slug self) = Some c → c ≠ "_"%char →
            String.get n hyphenated = Some c) ∧
    getitem (Playlist_dict self) (VStr "playlist_id") = Ok (playlist_id self) ∧
    getitem (Playlist_dict self) (VStr "title") = Ok (title self) ∧
    getitem (Playlist_dict self) (VStr "description") = Ok (description self) ∧
    getitem (Playlist_dict self) (VStr "creator_id") = Ok (creator_id self) ∧
    getitem (Playlist_dict self) (VStr "creator_name") = Ok (creator_name self).
Proof.
  destruct (str_replace_spec "_"%char "-"%char (slug self))
    as (Hlen & Hno & Hkeep).
  eexists. split; [reflexivity|]. split; [exact Hlen|].
  split; [intros n; apply str_replace_old|].
  split; [by apply Hno|]. split; [exact Hkeep|]. by repeat split.
Qed.

(** *** Channel assets *)

Lemma mkdir_exist_ok_Ok (p : list string) x (w w' : world) :
  mkdir_exist_ok (p ++ [x]) w = (Ok tt, w') →
  cache w' = cache w ∧ remote w' = remote w ∧
  trace w' = trace w ++ [EvMkdir (p ++ [x])] ∧
  stat (fs w') (p ++ [x]) = Ok Dir.
Proof.
  unfold mkdir_exist_ok, os_mkdir. rewrite removelast_last.
  assert (is_dir (fs w) (p ++ [x]) = true → stat (fs w) (p ++ [x]) = Ok Dir)
    as Hdir.
  { unfold is_dir. destruct (stat (fs w) (p ++ [x])) as [[|c]| |]; done. }
  destruct (stat (fs w) p) as [[|c]|e|] eqn:Hp.
  - destruct (fs w !! (p ++ [x])) as [n|] eqn:Hl.
    + destruct (is_dir (fs w) (p ++ [x])) eqn:Hd; intros; simplify_eq/=.
      auto.
    + intros; simplify_eq/=. repeat split; try done.
      apply walk_child; [|simpl; apply lookup_insert_eq].
      unfold stat in Hp. rewrite walk_insert_deeper; [done|].
      rewrite length_app. simpl. lia.
  - destruct (is_dir (fs w) (p ++ [x])) eqn:Hd; intros; simplify_eq/=. auto.
  - destruct e; try done;
      destruct (is_dir (fs w) (p ++ [x])) eqn:Hd; intros; simplify_eq/=; auto.
  - done.
Qed.

(** X19. [save_channel_branding] is idempotent: after a call that returned,
    a second call for the same channel returns too, and does nothing but
    call [mkdir] on the directory that is there by then: no request, no
    download, no resize, the files and the cache as the first call left
    them. *)
Theorem save_channel_branding_idempotent channels_dir (channel_id : string)
    save_banner again (w w1 : world) :
  save_channel_branding channels_dir (VStr channel_id) save_banner w = (Ok tt, w1) →
  save_channel_branding channels_dir (VStr channel_id) again w1
  = (Ok tt,
     World (cache w1) (remote w1) (fs w1)
       (trace w1 ++ [EvMkdir (channels_dir ++ [channel_id])])).
Proof.
  intros H. unfold save_channel_branding in H.
  apply M_bind_Ok in H as (channel_json & wa & Hchannel & H).
  apply M_bind_Ok in H as (thumbnails & wb & Hthumbs & H).
  apply lift_Ok in Hthumbs as [Hthumbs ->].
  apply M_bind_Ok in H as (thumbnail & wb & Hpick & H).
  apply lift_Ok in Hpick as [Hpick ->].
  apply M_bind_Ok in H as (channel_dir & wb & Hjoin & H).
  apply lift_Ok in Hjoin as [Hjoin ->]. simpl in Hjoin. simplify_eq.
  apply M_bind_Ok in H as ([] & wm & Hmk & H).
  apply M_bind_Ok in H as (profile_path & wb & Hjoin & H).
  apply lift_Ok in Hjoin as [Hjoin ->]. simpl in Hjoin. simplify_eq.
  apply M_bind_Ok in H as (found & wb & Hfound & H).
  unfold path_exists in Hfound. simplify_eq.
  apply M_bind_Ok in H as ([] & wi & Hblock & H).
  rewrite andb_false_r in H. unfold mret, M_mret, M_ret in H. simplify_eq.
  apply mkdir_exist_ok_Ok in Hmk as (Hcache & Hremote & Htrace & Hdir).
  pose proof (call_stores (getChannel false) (VStr channel_id) 0 w
                channel_json wa Hchannel) as Hstored.
  simpl in Hstored. rewrite <- Hcache in Hstored.
  (* the state the first call ends in *)
  assert (cache w1 = cache wb ∧
          stat (fs w1) (channels_dir ++ [channel_id]) = Ok Dir ∧
          ∃ n, stat (fs w1) ((channels_dir ++ [channel_id]) ++ ["profile.jpg"])
               = Ok n) as (Hc1 & Hd1 & n & Hp1).
  { assert (∀ files c,
              stat files (channels_dir ++ [channel_id]) = Ok Dir →
              let files' := <[(channels_dir ++ [channel_id]) ++ ["profile.jpg"]
                              := File c]> files in
              stat files' (channels_dir ++ [channel_id]) = Ok Dir ∧
              stat files' ((channels_dir ++ [channel_id]) ++ ["profile.jpg"])
              = Ok (File c)) as Hwritten.
    { intros files c Hd files'.
      assert (stat files' (channels_dir ++ [channel_id]) = Ok Dir) as Hd'.
      { unfold stat, files'. rewrite walk_insert_deeper; [done|].
        rewrite !length_app. simpl. lia. }
      split; [done|].
      apply walk_child; [done|]. simpl. apply lookup_insert_eq. }
    destruct (stat (fs wb) ((channels_dir ++ [channel_id]) ++ ["profile.jpg"]))
      as [n| |] eqn:Hstat; simpl in Hblock.
    - unfold mret, M_mret, M_ret in Hblock. simplify_eq.
      split; [done|]. split; [done|]. by exists n.
    - apply M_bind_Ok in Hblock as ([] & wc & Hcheck & Hblock).
      apply M_bind_Ok in Hblock as ([] & wd & Hstream & Hblock).
      destruct (negb (truthy thumbnail));
        unfold lift, mret, M_mret, M_ret in Hcheck; simplify_eq.
      unfold stream_file, resize_image, emit in *. simplify_eq/=.
      rewrite alter_insert_eq.
      destruct (Hwritten (fs wc) (Resized (Downloaded thumbnail) 100 100) Hdir)
        as [Hd' Hp']. split; [done|]. split; [done|]. eauto.
    - apply M_bind_Ok in Hblock as ([] & wc & Hcheck & Hblock).
      apply M_bind_Ok in Hblock as ([] & wd & Hstream & Hblock).
      destruct (negb (truthy thumbnail));
        unfold lift, mret, M_mret, M_ret in Hcheck; simplify_eq.
      unfold stream_file, resize_image, emit in *. simplify_eq/=.
      rewrite alter_insert_eq.
      destruct (Hwritten (fs wc) (Resized (Downloaded thumbnail) 100 100) Hdir)
        as [Hd' Hp']. split; [done|]. split; [done|]. eauto. }
  rewrite <- Hc1 in Hstored.
  (* the record is no null: its snippet was read *)
  assert (channel_json ≠ VNone) as Hrecord by (by intros ->).
  assert (get_channel_json (VStr channel_id) false w1 = (Ok channel_json, w1))
    as Hhit by exact (call_hit (getChannel false) (VStr channel_id) 0 w1
                        channel_json Hstored Hrecord).
  unfold save_channel_branding.
  unfold mbind, mret, M_mbind, M_mret, M_bind, M_ret, lift in *.
  rewrite Hhit, Hthumbs, Hpick. simpl.
  rewrite (mkdir_exist_ok_existing channels_dir channel_id w1 Hd1).
  unfold path_exists, emit. simpl. rewrite Hp1. simpl.
  by rewrite andb_false_r.
Qed.

Lemma mkdir_exist_ok_frame (p : list string) (w : world) o w' :
  mkdir_exist_ok p w = (o, w') →
  ∀ q, q ≠ p → fs w' !! q = fs w !! q.
Proof.
  unfold mkdir_exist_ok, os_mkdir, emit. intros H q Hq.
  split_cases; by rewrite lookup_insert_ne.
Qed.

(** X20. [save_channel_branding] writes nowhere but in the directory of
    the channel: whatever the outcome, and whether [save_banner] is set or
    not, every path other than that directory and its "profile.jpg" is as
    it was; in particular no "banner.jpg" ever appears.  The flag changes
    nothing at all. *)
Theorem save_channel_branding_writes_profile_only channels_dir
    (channel_id : string) (save_banner : bool) (w : world) o w' :
  save_channel_branding channels_dir (VStr channel_id) save_banner w = (o, w') →
  (∀ q, q ≠ channels_dir ++ [channel_id] →
        q ≠ channels_dir ++ [channel_id; "profile.jpg"] →
        fs w' !! q = fs w !! q) ∧
  fs w' !! (channels_dir ++ [channel_id; "banner.jpg"])
  = fs w !! (channels_dir ++ [channel_id; "banner.jpg"]) ∧
  save_channel_branding channels_dir (VStr channel_id) (negb save_banner) w
  = (o, w').
Proof.
  intros H.
  assert (∀ q, q ≠ channels_dir ++ [channel_id] →
               q ≠ channels_dir ++ [channel_id; "profile.jpg"] →
               fs w' !! q = fs w !! q) as Hframe.
  { intros q Hdir Hprofile. revert H.
    unfold save_channel_branding.
    unfold mbind, mret, M_mbind, M_mret, M_bind, M_ret, lift,
      outcome_mbind, outcome_bind, stream_file, resize_image, path_exists,
      emit.
    destruct (get_channel_json (VStr channel_id) false w)
      as [[channel_json| |] wa] eqn:Hchannel;
      apply get_channel_json_fs in Hchannel;
      [|intros; simplify_eq; congruence..].
    rewrite andb_false_r. simpl joinpath.
    destruct (mkdir_exist_ok (channels_dir ++ [channel_id]) wa)
      as [[[]| |] wm] eqn:Hmk;
      pose proof (mkdir_exist_ok_frame _ _ _ _ Hmk q Hdir) as Hm;
      rewrite <- app_assoc in *; simpl in *;
      intros H; split_cases;
      rewrite ?lookup_alter_ne, ?lookup_insert_ne by done; congruence. }
  split; [exact Hframe|]. split.
  - apply Hframe.
    + intros E. apply (f_equal length) in E. rewrite !length_app in E.
      simpl in E. lia.
    + intros E. apply app_inv_head in E. by simplify_eq.
  - rewrite <- H. by destruct save_banner.
Qed.

(** *** Lookups that succeed *)

(** X21. On a cache miss, a channel or playlist lookup answered with a
    non-empty "items" array returns the first item, whatever follows it,
    writes it under the identifier's key and sends this one request. *)
Theorem answered_lookup_returns_first_item (a : accessor) fuel (id : value)
    (w : world) resp body first others s' :
  a ≠ getChannelPlaylists →
  a ≠ getPlaylistVideos →
  cache w !! accessor_key a id = None →
  respond (remote w) (lookup_request a id) = (Some resp, s') →
  raise_for_status resp = Ok tt →
  json_body resp = Some (VDict body) →
  dict_lookup body (VStr "items") = Some (VList (first :: others)) →
  call a fuel id w
  = (Ok first,
     World (<[accessor_key a id := first]> (cache w)) s' (fs w)
       (trace w ++ [EvRequest (lookup_request a id);
                    EvSave (accessor_key a id) first])).
Proof.
  intros Ha1 Ha2 Hmiss Hr Hs Hb Hitems.
  destruct a; try done; simpl in *;
    unfold get_channel_json, get_playlist_json; unfold_run;
    miss Hmiss;
    [fold (channel_request id byUsername)|fold (playlist_request id)];
    rewrite Hr, Hs; unfold json; rewrite Hb; simpl; rewrite Hitems; simpl;
    by rewrite <- app_assoc.
Qed.

(** X22. A playlist built by [Playlist.from_id] carries the id it was asked
    for, the title, description, channel id and channel title of the
    snippet of the playlist record, and the slug [get_slug] makes of that
    title; the record is the one [get_playlist_json] returns, and nothing
    else happens to the world. *)
Theorem Playlist_from_id_fields (id : value) (w : world) p w' :
  Playlist_from_id id w = (Ok p, w') →
  ∃ playlist_json,
    get_playlist_json id w = (Ok playlist_json, w') ∧
    playlist_id p = id ∧
    snippet_field playlist_json "title" = Ok (title p) ∧
    snippet_field playlist_json "description" = Ok (description p) ∧
    snippet_field playlist_json "channelId" = Ok (creator_id p) ∧
    snippet_field playlist_json "channelTitle" = Ok (creator_name p) ∧
    get_slug (title p) = Ok (slug p).
Proof.
  unfold Playlist_from_id. intros H.
  apply M_bind_Ok in H as (pj & w1 & Hpj & H).
  apply lift_Ok in H as [H ->].
  apply outcome_bind_Ok in H as (t & Ht & H).
  apply outcome_bind_Ok in H as (d & Hd & H).
  apply outcome_bind_Ok in H as (c & Hc & H).
  apply outcome_bind_Ok in H as (n & Hn & H).
  apply outcome_bind_Ok in H as (sl & Hsl & H).
  simplify_eq. exists pj. by repeat split.
Qed.

End Further.

(** * The properties on concrete runs *)

#[local] Existing Instance Scripted.

(** Proves a [page_stream] of the scripted remote by running it. *)
Ltac good_page_tac :=
  split; [reflexivity|eexists; split; [reflexivity|split; reflexivity]].

Ltac page_stream_tac :=
  repeat first
    [ eapply stream_last; [reflexivity|good_page_tac|reflexivity]
    | eapply stream_broken; reflexivity
    | eapply stream_more; [reflexivity|good_page_tac|reflexivity|] ].

(** A cached null is no hit, and a lookup can cache a null itself.
    - Under the key of channel "C" the cache holds the JSON null: the lookup
      of "C" does not return it; it sends a request and returns the record
      the remote serves.
    - The remote answers the lookup of playlist "PL" with the one item null:
      the first call returns null and caches it; the second call with the
      same identifier sends a second request and returns another value. *)
Lemma accessor_reuses_cache_counterexample :
  (let w := @World Scripted {["channel_C" := VNone]}
              [page [channel_resource "C" "UU" []] None] ∅ [] in
   cache w !! accessor_key (getChannel false) (VStr "C") = Some VNone ∧
   ∃ w', call (getChannel false) 0 (VStr "C") w
         = (Ok (channel_resource "C" "UU" []), w') ∧
         channel_resource "C" "UU" [] ≠ VNone ∧
         length (requests_of (trace w)) = 0 ∧
         length (requests_of (trace w')) = 1) ∧
  (let w := start [page [VNone] None; page [playlist_resource "PL" "C"] None] in
   ∃ w1 w2,
     call getPlaylist 0 (VStr "PL") w = (Ok VNone, w1) ∧
     cache w1 !! accessor_key getPlaylist (VStr "PL") = Some VNone ∧
     call getPlaylist 0 (VStr "PL") w1 = (Ok (playlist_resource "PL" "C"), w2) ∧
     playlist_resource "PL" "C" ≠ VNone ∧
     length (requests_of (trace w1)) = 1 ∧
     length (requests_of (trace w2)) = 2).
Proof.
  split.
  - intros w. split; [reflexivity|].
    eexists. split; [vm_compute; reflexivity|]. by repeat split.
  - intros w. eexists _, _.
    split; [vm_compute; reflexivity|].
    split; [reflexivity|].
    split; [vm_compute; reflexivity|]. by repeat split.
Qed.

(** A playlist looked up once: the second call is answered from the cache,
    with no remote left.  A playlist listed in two pages: the second call is
    answered from the cache, with no fuel and no remote left. *)
Lemma accessor_reuses_cache_witness :
  (let first := call (Ext := Scripted) getPlaylist 0 (VStr "PL")
                  (start [page [playlist_resource "PL" "C"] None]) in
   first.1 = Ok (playlist_resource "PL" "C") ∧
   playlist_resource "PL" "C" ≠ VNone ∧
   cache first.2 !! accessor_key getPlaylist (VStr "PL")
   = Some (playlist_resource "PL" "C") ∧
   call getPlaylist 0 (VStr "PL") first.2
   = (Ok (playlist_resource "PL" "C"), first.2)) ∧
  (let first := call (Ext := Scripted) getPlaylistVideos 2 (VStr "PL")
                  (start [page [VStr "v1"] (Some "t1"); page [VStr "v2"] None]) in
   first.1 = Ok (VList [VStr "v1"; VStr "v2"]) ∧
   cache first.2 !! accessor_key getPlaylistVideos (VStr "PL")
   = Some (VList [VStr "v1"; VStr "v2"]) ∧
   call getPlaylistVideos 0 (VStr "PL") first.2
   = (Ok (VList [VStr "v1"; VStr "v2"]), first.2)).
Proof.
  split.
  - intros first.
    destruct (accessor_reuses_cache (Ext := Scripted) getPlaylist (VStr "PL"))
      as (Hhit & Hagain & _).
    assert (first = (Ok (playlist_resource "PL" "C"), first.2)) as Hfirst
      by (vm_compute; reflexivity).
    split; [by rewrite Hfirst|]. split; [discriminate|]. split.
    + vm_compute. reflexivity.
    + apply (Hhit 0 first.2 (playlist_resource "PL" "C"));
        [vm_compute; reflexivity|discriminate].
  - intros first.
    destruct (accessor_reuses_cache (Ext := Scripted) getPlaylistVideos
                (VStr "PL")) as (_ & _ & Hlisting).
    assert (first = (Ok (VList [VStr "v1"; VStr "v2"]), first.2)) as Hfirst
      by (vm_compute; reflexivity).
    split; [by rewrite Hfirst|]. split.
    + vm_compute. reflexivity.
    + apply (Hlisting 2 0
               (start [page [VStr "v1"] (Some "t1"); page [VStr "v2"] None]));
        [by right|exact Hfirst].
Defined.

(** One page, then a 500: the channel's playlists keep the page in the
    cache, the playlist's videos leave the cache empty. *)
Lemma persistence_disciplines_witness :
  let w := start [page [VStr "a"; VStr "b"] (Some "t1"); failure 500] in
  (∃ w', get_channel_playlists_json 2 (VStr "C") w = (Raise HTTPError, w') ∧
         saves_of (trace w') = [("channel_C_playlists", VList [VStr "a"; VStr "b"])] ∧
         cache w' = {["channel_C_playlists" := VList [VStr "a"; VStr "b"]]}) ∧
  (∃ w', get_videos_json 2 (VStr "C") w = (Raise HTTPError, w') ∧
         saves_of (trace w') = [] ∧
         cache w' = ∅).
Proof.
  intros w.
  destruct (persistence_disciplines (Ext := Scripted) (VStr "C")
              [[VStr "a"; VStr "b"]] (Broken HTTPError) [] 2 w)
    as [Hplaylists Hvideos]; [simpl; lia|].
  split.
  - destruct Hplaylists as (w' & toks & Hrun & _ & _ & Hsaves & Hcache);
      [reflexivity|page_stream_tac|].
    exists w'. split; [exact Hrun|]. split; [exact Hsaves|exact Hcache].
  - destruct Hvideos as (w' & toks & Hrun & _ & _ & Hsaves & Hcache);
      [reflexivity|page_stream_tac|].
    exists w'. split; [exact Hrun|]. split; [exact Hsaves|exact Hcache].
Defined.

(** Three pages, cursors on the first two. *)
Lemma get_videos_json_concatenates_pages_witness :
  let w := start [page [VStr "a"; VStr "b"] (Some "t1");
                  page [VStr "c"] (Some "t2");
                  page [VStr "d"; VStr "e"] None] in
  ∃ w', get_videos_json 3 (VStr "PL") w
        = (Ok (VList [VStr "a"; VStr "b"; VStr "c"; VStr "d"; VStr "e"]), w') ∧
        remote w' = [] ∧
        length (requests_of (trace w')) = 3.
Proof.
  intros w.
  apply (get_videos_json_concatenates_pages (Ext := Scripted) (VStr "PL")
           [[VStr "a"; VStr "b"]; [VStr "c"]; [VStr "d"; VStr "e"]] [] 3 w).
  - reflexivity.
  - page_stream_tac.
  - simpl. lia.
Defined.

(** The entry is present and holds the JSON null: asking for "x" does not
    return it; the resolver sends a request, returns the mapping the remote
    serves and overwrites the entry. *)
Lemma get_videos_authors_info_cached_counterexample :
  let w := @World Scripted {["videos_channels" := VNone]}
             [page [video_resource "x" "UCx"] None] ∅ [] in
  let served := VDict [(VStr "x", author_entry "UCx")] in
  cache w !! "videos_channels" = Some VNone ∧
  ∃ w', get_videos_authors_info 1 [VStr "x"] w = (Ok served, w') ∧
        served ≠ VNone ∧
        length (requests_of (trace w)) = 0 ∧
        length (requests_of (trace w')) = 1 ∧
        cache w' !! "videos_channels" = Some served.
Proof.
  intros w served. split; [reflexivity|].
  eexists. split; [vm_compute; reflexivity|]. by repeat split.
Qed.

(** The cache was filled for some other ids; asking for "x" returns it. *)
Lemma get_videos_authors_info_cached_witness :
  let w := @World Scripted {["videos_channels" := VDict []]} [] ∅ [] in
  get_videos_authors_info 0 [VStr "x"] w = (Ok (VDict []), w).
Proof.
  intros w.
  apply (get_videos_authors_info_cached (Ext := Scripted) 0 [VStr "x"] w (VDict []));
    [reflexivity|discriminate].
Defined.

(** Title "Deleted video" with some other description, and the unavailable
    notice under some other title: each is classified as deleted, though
    neither matches both sentinels. *)
Lemma isDeleted_both_sentinels_counterexample :
  (isDeleted (video_item (VStr "Deleted video") (VStr "still here")) = Ok true ∧
   isDeleted_spec (VStr "Deleted video") (VStr "still here") = false) ∧
  (isDeleted (video_item (VStr "A title") (VStr "This video is unavailable."))
   = Ok true ∧
   isDeleted_spec (VStr "A title") (VStr "This video is unavailable.") = false).
Proof. repeat split; reflexivity. Qed.

Lemma isDeleted_either_sentinel_witness :
  ∃ b, isDeleted (video_item (VStr "Deleted video") (VStr "still here")) = Ok b ∧
       (b = true ↔ VStr "Deleted video" = VStr "Deleted video"
                   ∨ VStr "still here" = VStr "This video is unavailable.").
Proof.
  apply (isDeleted_either_sentinel
           (video_item (VStr "Deleted video") (VStr "still here"))
           (VDict [(VStr "title", VStr "Deleted video");
                   (VStr "description", VStr "still here")])
           (VStr "Deleted video") (VStr "still here")); reflexivity.
Defined.

Lemma Scripted_set_order l : set_order (Externals := Scripted) l ≡ₚ l.
Proof. symmetry. apply Permutation_rev. Qed.

(** 101 ids, each chunk answered in one page: three requests, three authors
    merged, one cache write. *)
Lemma get_videos_authors_info_batches_witness :
  let w := start [page [video_resource "a" "UCa"] None;
                  page [video_resource "b" "UCb"] None;
                  page [video_resource "c" "UCc"] None] in
  let merged := VDict [(VStr "a", author_entry "UCa");
                       (VStr "b", author_entry "UCb");
                       (VStr "c", author_entry "UCc")] in
  length <$> chunks_of ids101 = [50; 50; 1] ∧
  ∃ w' reqs,
    get_videos_authors_info 1 ids101 w = (Ok merged, w') ∧
    requests_of (trace w') = reqs ∧
    length reqs = 3 ∧
    id_param <$> reqs = [Some (VStr (joined (replicate 50 (VStr "a"))));
                         Some (VStr (joined (replicate 50 (VStr "b"))));
                         Some (VStr "c")] ∧
    saves_of (trace w') = [("videos_channels", merged)].
Proof.
  intros w merged.
  destruct (get_videos_authors_info_batches (Ext := Scripted) ids101)
    as [(_ & _ & Hsizes) Hrun].
  split; [by apply Hsizes|].
  destruct (Hrun [ServedChunk (joined (replicate 50 (VStr "a"))) 1
                    [(VStr "a", author_entry "UCa")];
                  ServedChunk (joined (replicate 50 (VStr "b"))) 1
                    [(VStr "b", author_entry "UCb")];
                  ServedChunk "c" 1 [(VStr "c", author_entry "UCc")]]
              [] 1 w)
    as (w' & reqs & Hres & Hreqs & _ & Hids & _ & Hsaves & _ & Hthree).
  - reflexivity.
  - change (chunks_of ids101)
      with [replicate 50 (VStr "a"); replicate 50 (VStr "b"); [VStr "c"]].
    refine (served_cons _ _ _ [[video_resource "a" "UCa"]] _ _ _ _ _ _ _ _ _);
      [reflexivity|page_stream_tac|reflexivity|].
    refine (served_cons _ _ _ [[video_resource "b" "UCb"]] _ _ _ _ _ _ _ _ _);
      [reflexivity|page_stream_tac|reflexivity|].
    refine (served_cons _ _ _ [[video_resource "c" "UCc"]] _ _ _ _ _ _ _ _ _);
      [reflexivity|page_stream_tac|reflexivity|].
    apply served_nil.
  - repeat constructor.
  - exists w', reqs. split; [exact Hres|]. split; [exact Hreqs|].
    split; [apply Hthree; [reflexivity|repeat constructor]|].
    split; [exact Hids|exact Hsaves].
Defined.

(** User "acme" is channel C1 with uploads playlist PUp; the listing returns
    P1 and P2 only. *)
Lemma uploads_playlist_in_collection_witness :
  let w := start [page [channel_resource "C1" "PUp" []] None;
                  page [VDict [(VStr "id", VStr "P1")];
                        VDict [(VStr "id", VStr "P2")]] None;
                  page [playlist_resource "PUp" "C1"] None;
                  page [playlist_resource "P2" "C1"] None;
                  page [playlist_resource "P1" "C1"] None] in
  ∃ playlists w',
    extract_playlists_details_from 1 USER (VStr "acme") w
    = (Ok (playlists, VStr "C1", VStr "PUp"), w') ∧
    playlist_id <$> playlists = [VStr "PUp"; VStr "P2"; VStr "P1"] ∧
    ∃ p, p ∈ playlists ∧ playlist_id p = VStr "PUp".
Proof.
  intros w.
  destruct (extract_playlists_details_from 1 USER (VStr "acme") w)
    as [[[[playlists main] uploads]| |] w'] eqn:Hrun;
    pose proof Hrun as Hval; vm_compute in Hval; try discriminate.
  injection Hval as <- <- <- <-.
  eexists _, _. split; [reflexivity|]. split; [reflexivity|].
  destruct (uploads_playlist_in_collection (Ext := Scripted) 1 USER (VStr "acme")
              w _ _ _ _ Scripted_set_order (or_introl eq_refl) Hrun)
    as [_ (p & Hp & _ & Hsame)].
  exists p. split; [exact Hp|]. by apply Hsame.
Defined.

(** "A,B,A": two lookups, two playlists. *)
Lemma playlist_collection_deduplicates_witness :
  let w := start [page [playlist_resource "A" "C1"] None;
                  page [playlist_resource "B" "C1"] None] in
  ∃ playlists w',
    extract_playlists_details_from 0 PLAYLIST (VStr "A,B,A") w
    = (Ok (playlists, VStr "C1", VNone), w') ∧
    NoDup (playlist_id <$> playlists) ∧
    (∀ id, id ∈ playlist_id <$> playlists
           ↔ id ∈ [VStr "A"; VStr "B"; VStr "A"]) ∧
    length playlists = 2 ∧
    length (requests_of (trace w')) = 2.
Proof.
  intros w.
  destruct (extract_playlists_details_from 0 PLAYLIST (VStr "A,B,A") w)
    as [[[[playlists main] uploads]| |] w'] eqn:Hrun;
    pose proof Hrun as Hval; vm_compute in Hval; try discriminate.
  injection Hval as <- <- <- <-.
  eexists _, _. split; [reflexivity|].
  destruct (playlist_collection_deduplicates (Ext := Scripted) 0 "A,B,A"
              w _ _ _ _ Scripted_set_order Hrun)
    as (Hnodup & Hsame & Hlen).
  split; [exact Hnodup|]. split; [exact Hsame|].
  split; [by apply Hlen|reflexivity].
Defined.

(** A channel without thumbnails whose profile image is on disk: no
    error. *)
Lemma save_channel_branding_thumbnail_counterexample :
  let w := channel_cached [] assets_with_profile in
  preferred_thumbnail [] = None ∧
  ∃ w', save_channel_branding ["channels"] (VStr "C1") false w = (Ok tt, w').
Proof.
  intros w. split; [reflexivity|].
  destruct (save_channel_branding ["channels"] (VStr "C1") false w)
    as [[[]| |] w'] eqn:Hrun; vm_compute in Hrun; try discriminate.
  by exists w'.
Qed.

(** A channel that lists only the "default" quality, no profile image on
    disk: the 88px URL is downloaded and resized. *)
Lemma save_channel_branding_thumbnail_witness :
  let thumbnails := [(VStr "default", VDict [(VStr "url", VStr "https://img/88.jpg")])] in
  let w := channel_cached thumbnails assets_empty in
  ∃ w', save_channel_branding ["channels"] (VStr "C1") false w = (Ok tt, w') ∧
        trace w' = [EvMkdir ["channels"; "C1"];
                    EvDownload (VStr "https://img/88.jpg")
                      ["channels"; "C1"; "profile.jpg"];
                    EvResize ["channels"; "C1"; "profile.jpg"] 100 100] ∧
        fs w' !! ["channels"; "C1"; "profile.jpg"]
        = Some (File (Resized (Downloaded (VStr "https://img/88.jpg")) 100 100)).
Proof.
  intros thumbnails w.
  apply (save_channel_branding_thumbnail (Ext := Scripted) ["channels"] "C1" false
           w (channel_resource "C1" "PUp" thumbnails) w
           (VDict [(VStr "thumbnails", VDict thumbnails)]) thumbnails).
  - reflexivity.
  - reflexivity.
  - reflexivity.
  - vm_compute. reflexivity.
  - intros c. vm_compute. discriminate.
  - vm_compute. reflexivity.
  - reflexivity.
  - reflexivity.
Defined.

(** The same channel without thumbnails, profile image on disk: the call
    returns, the files are untouched, only [mkdir] is recorded. *)
Lemma save_channel_branding_keeps_profile_witness :
  let w := channel_cached [] assets_with_profile in
  ∃ w', save_channel_branding ["channels"] (VStr "C1") false w = (Ok tt, w') ∧
        cache w' = cache w ∧ remote w' = remote w ∧
        fs w' = assets_with_profile ∧
        trace w' = [EvMkdir ["channels"; "C1"]].
Proof.
  intros w.
  apply (save_channel_branding_keeps_profile (Ext := Scripted) ["channels"] "C1"
           false w (channel_resource "C1" "PUp" []) w
           (VDict [(VStr "thumbnails", VDict [])]) [] (Preexisting 0)).
  - reflexivity.
  - reflexivity.
  - reflexivity.
  - intros quality entry H. discriminate H.
  - vm_compute. reflexivity.
Defined.

(** ** Further properties on concrete runs *)

(** A listing is fetched while another key is cached. *)
Lemma call_writes_own_key_only_witness :
  let w := @World Scripted {["videos_channels" := VDict []]}
             [page [VStr "a"] None] ∅ [] in
  let r := call getChannelPlaylists 1 (VStr "C") w in
  r.1 = Ok (VList [VStr "a"]) ∧
  cache r.2 !! "videos_channels" = Some (VDict []) ∧
  fs r.2 = ∅.
Proof.
  intros w r. split; [reflexivity|].
  destruct (call_writes_own_key_only (Ext := Scripted) getChannelPlaylists 1
              (VStr "C") w r.1 r.2) as [Hkeys Hfs];
    [exact (surjective_pairing r)|].
  split; [|exact Hfs].
  rewrite Hkeys; [reflexivity|]. vm_compute. discriminate.
Defined.

(** A playlist lookup answered 404. *)
Lemma failed_call_keeps_cache_witness :
  let w := @World Scripted {["videos_channels" := VDict []]} [failure 404] ∅ [] in
  let r := call getPlaylist 0 (VStr "P") w in
  r.1 = Raise HTTPError ∧ cache r.2 = cache w.
Proof.
  intros w r. split; [reflexivity|].
  apply (failed_call_keeps_cache (Ext := Scripted) getPlaylist 0 (VStr "P")
           w r.1 r.2); [done|exact (surjective_pairing r)|].
  intros v. vm_compute. discriminate.
Defined.

(** "acme" looked up as a username, then as a channel id. *)
Lemma channel_cache_ignores_lookup_mode_witness :
  let first := get_channel_json (VStr "acme") true
                 (start [page [channel_resource "C1" "PUp" []] None]) in
  first.1 = Ok (channel_resource "C1" "PUp" []) ∧
  get_channel_json (VStr "acme") false first.2
  = (Ok (channel_resource "C1" "PUp" []), first.2).
Proof.
  intros first. split; [reflexivity|].
  apply (channel_cache_ignores_lookup_mode (Ext := Scripted) (VStr "acme")
           true false (start [page [channel_resource "C1" "PUp" []] None]));
    [vm_compute; reflexivity|discriminate].
Defined.

(** One page, then a 500; afterwards the page passes for the listing. *)
Lemma partial_listing_taken_for_complete_witness :
  let w := start [page [VStr "a"; VStr "b"] (Some "t1"); failure 500] in
  ∃ w', get_channel_playlists_json 2 (VStr "C") w = (Raise HTTPError, w') ∧
        ∀ fuel', get_channel_playlists_json fuel' (VStr "C") w'
                 = (Ok (VList [VStr "a"; VStr "b"]), w').
Proof.
  intros w.
  apply (partial_listing_taken_for_complete (Ext := Scripted) (VStr "C")
           [[VStr "a"; VStr "b"]] HTTPError [] 2 w).
  - reflexivity.
  - page_stream_tac.
  - discriminate.
  - simpl. lia.
Defined.

(** A channel lookup answered 503. *)
Lemma failed_lookup_raises_witness :
  let w := start [failure 503] in
  call (getChannel false) 0 (VStr "C1") w
  = (Raise HTTPError,
     @World Scripted ∅ [] ∅ [EvRequest (channel_request (VStr "C1") false)]).
Proof.
  intros w.
  apply (failed_lookup_raises (Ext := Scripted) (getChannel false) 0 (VStr "C1")
           w (failure 503) HTTPError []); try done.
Defined.

(** A playlist lookup answered with no item. *)
Lemma unknown_id_not_found_witness :
  let w := start [page [] None] in
  call getPlaylist 0 (VStr "nope") w
  = (Raise IndexError,
     @World Scripted ∅ [] ∅ [EvRequest (playlist_request (VStr "nope"))]).
Proof.
  intros w.
  apply (unknown_id_not_found (Ext := Scripted) getPlaylist 0 (VStr "nope") w
           {| status_code := 200;
              json_body := Some (VDict [(VStr "items", VList [])]) |}
           [(VStr "items", VList [])] []); try done.
Defined.

(** The channel "doesNotExist": one request, nothing else. *)
Lemma unknown_channel_aborts_resolution_witness :
  let w := start [page [] None; page [VStr "never asked"] None] in
  extract_playlists_details_from 1 CHANNEL (VStr "doesNotExist") w
  = (Raise IndexError,
     @World Scripted ∅ [page [VStr "never asked"] None] ∅
       [EvRequest (channel_request (VStr "doesNotExist") false)]).
Proof.
  intros w.
  apply (unknown_channel_aborts_resolution (Ext := Scripted) 1 CHANNEL
           (VStr "doesNotExist") w
           {| status_code := 200;
              json_body := Some (VDict [(VStr "items", VList [])]) |}
           [(VStr "items", VList [])] [page [VStr "never asked"] None]);
    try done.
  by right.
Defined.

Lemma unsupported_collection_type_witness :
  let w := start [page [] None] in
  extract_playlists_details_from 1 "video" (VStr "x") w
  = (Raise NotImplementedError, w).
Proof.
  intros w.
  apply (unsupported_collection_type (Ext := Scripted) 1 "video" (VStr "x") w);
    discriminate.
Defined.

(** "A,B,A": the main channel is the one of playlist A. *)
Lemma playlist_collection_main_channel_witness :
  let w := start [page [playlist_resource "A" "CA"] None;
                  page [playlist_resource "B" "CB"] None] in
  ∃ playlists w',
    extract_playlists_details_from 0 PLAYLIST (VStr "A,B,A") w
    = (Ok (playlists, VStr "CA", VNone), w') ∧
    ∃ playlist_json w1,
      get_playlist_json (VStr "A") w = (Ok playlist_json, w1) ∧
      snippet_field playlist_json "channelId" = Ok (VStr "CA").
Proof.
  intros w.
  destruct (extract_playlists_details_from 0 PLAYLIST (VStr "A,B,A") w)
    as [[[[playlists main] uploads]| |] w'] eqn:Hrun;
    pose proof Hrun as Hval; vm_compute in Hval; try discriminate.
  injection Hval as <- <- <- <-.
  eexists _, _. split; [reflexivity|].
  destruct (playlist_collection_main_channel (Ext := Scripted) 0 "A,B,A"
              w _ _ _ _ Hrun)
    as (_ & first & rest & pj & w1 & Hsplit & Hpj & Hmain).
  injection Hsplit as <- <-.
  by exists pj, w1.
Defined.

(** User "acme": the uploads playlist PUp is listed too, and comes once. *)
Lemma channel_collection_playlists_witness :
  let w := start [page [channel_resource "C1" "PUp" []] None;
                  page [VDict [(VStr "id", VStr "P1")];
                        VDict [(VStr "id", VStr "PUp")]] None;
                  page [playlist_resource "PUp" "C1"] None;
                  page [playlist_resource "P1" "C1"] None] in
  ∃ playlists w',
    extract_playlists_details_from 1 USER (VStr "acme") w
    = (Ok (playlists, VStr "C1", VStr "PUp"), w') ∧
    NoDup (playlist_id <$> playlists) ∧
    (∀ id, id ∈ playlist_id <$> playlists →
           id ∈ [VStr "P1"; VStr "PUp"] ∨ id = VStr "PUp").
Proof.
  intros w.
  destruct (extract_playlists_details_from 1 USER (VStr "acme") w)
    as [[[[playlists main] uploads]| |] w'] eqn:Hrun;
    pose proof Hrun as Hval; vm_compute in Hval; try discriminate.
  injection Hval as <- <- <- <-.
  eexists _, _. split; [reflexivity|].
  destruct (channel_collection_playlists (Ext := Scripted) 1 USER (VStr "acme")
              w _ _ _ _ Scripted_set_order (or_introl eq_refl) Hrun)
    as (cj & w1 & listing & w2 & listed & Hcj & _ & Hlisting & Hlisted
        & Hin & _ & Hnodup).
  vm_compute in Hcj. injection Hcj as <- <-.
  vm_compute in Hlisting. injection Hlisting as <- <-.
  vm_compute in Hlisted. injection Hlisted as <-.
  split; [|exact Hin].
  apply Hnodup. intros id Hid.
  repeat (apply elem_of_cons in Hid as [->|Hid]; [by eexists|]).
  by apply elem_of_nil in Hid.
Defined.

(** The search answers with one item: the credential is good. *)
Lemma credentials_ok_outcome_witness :
  let w := start [page [VStr "hit"] None] in
  credentials_ok w
  = (Ok true, @World Scripted ∅ [] ∅ [EvRequest search_request]).
Proof.
  intros w.
  destruct (credentials_ok_outcome (Ext := Scripted) w
              (page [VStr "hit"] None) []) as (o & Hrun & b & -> & Hb);
    [reflexivity|].
  rewrite Hrun. f_equal. f_equal. apply Hb.
  split; [reflexivity|]. by eexists _, _.
Defined.

(** 101 ids, the second chunk answered 500: the first chunk is lost. *)
Lemma get_videos_authors_info_all_or_nothing_witness :
  let w := start [page [video_resource "a" "UCa"] None; failure 500] in
  let r := get_videos_authors_info 1 ids101 w in
  r.1 = Raise HTTPError ∧ cache r.2 = ∅.
Proof.
  intros w r.
  assert (r.1 = Raise HTTPError) as Hout by (vm_compute; reflexivity).
  split; [exact Hout|].
  pose proof (get_videos_authors_info_all_or_nothing (Ext := Scripted) 1 ids101
                w r.1 r.2 eq_refl (surjective_pairing r)) as Hcache.
  rewrite Hout in Hcache. exact Hcache.
Defined.

Lemma chunks_of_count_witness :
  length (chunks_of ids101) = 3 ∧
  101 ≤ 50 * length (chunks_of ids101) ∧
  50 * length (chunks_of ids101) < 101 + 50 ∧
  length <$> (chunks_of ids101 !! 1) = Some 50.
Proof.
  destruct (chunks_of_count ids101) as (Hlow & Hhigh & Hfull).
  split; [reflexivity|]. split; [exact Hlow|]. split; [exact Hhigh|].
  destruct (chunks_of ids101 !! 1) as [chunk|] eqn:Hchunk; [|discriminate].
  simpl. f_equal. apply (Hfull 1 chunk Hchunk).
  change (length (chunks_of ids101)) with 3. lia.
Defined.

(** A number among the ids. *)
Lemma non_string_id_raises_witness :
  let w := start [page [video_resource "a" "UCa"] None] in
  get_videos_authors_info 1 [VStr "a"; VInt 7] w = (Raise TypeError, w).
Proof.
  intros w.
  apply (non_string_id_raises (Ext := Scripted) 1 [VStr "a"; VInt 7] w 1 (VInt 7));
    try done; lia.
Defined.

Lemma no_ids_caches_empty_map_witness :
  let w := start [page [video_resource "a" "UCa"] None] in
  ∃ w1, get_videos_authors_info 0 [] w = (Ok (VDict []), w1) ∧
        get_videos_authors_info 1 [VStr "a"] w1 = (Ok (VDict []), w1).
Proof.
  intros w.
  destruct (no_ids_caches_empty_map (Ext := Scripted) 0 w eq_refl)
    as [Hfirst Hlater].
  eexists. split; [exact Hfirst|]. apply Hlater.
Defined.

(** The video "a" is answered twice: the second answer stays. *)
Lemma author_map_last_item_wins_witness :
  let items := [video_resource "a" "UC1"; video_resource "b" "UCb";
                video_resource "a" "UC2"] in
  ∃ m, for_each add_author items [] = Ok m ∧
       dict_lookup m (VStr "a") = Some (author_entry "UC2") ∧
       dict_lookup m (VStr "z") = None.
Proof.
  intros items.
  destruct (for_each add_author items []) as [m| |] eqn:Hm;
    pose proof Hm as Hval; vm_compute in Hval; try discriminate.
  exists m. split; [reflexivity|].
  destruct (author_map_last_item_wins items
              [video_resource "a" "UC1"; video_resource "b" "UCb"]
              (video_resource "a" "UC2") [] [] m (VStr "a") Hm eq_refl eq_refl)
    as [(c & t & Hc & Ht & Hlookup) Hother].
  { intros later id' Hin. by apply elem_of_nil in Hin. }
  vm_compute in Hc, Ht. injection Hc as <-. injection Ht as <-.
  split; [exact Hlookup|].
  rewrite Hother; [reflexivity|].
  intros item' id' Hin Hid.
  repeat (apply elem_of_cons in Hin as [->|Hin];
          [vm_compute in Hid; by injection Hid as <-|]).
  by apply elem_of_nil in Hin.
Defined.

(** A deleted video without description. *)
Lemma skip_deleted_videos_missing_fields_witness :
  skip_deleted_videos
    (VDict [(VStr "snippet", VDict [(VStr "title", VStr "Deleted video")])])
  = Ok false.
Proof.
  exact (skip_deleted_videos_missing_fields
           [(VStr "title", VStr "Deleted video")] eq_refl).
Defined.

Lemma Playlist_dict_slug_witness :
  let p := mkPlaylist (VStr "PL1") (VStr "My play list") (VStr "d")
             (VStr "C1") (VStr "Acme") "my_play_list" in
  getitem (Playlist_dict p) (VStr "slug") = Ok (VStr "my-play-list") ∧
  ∃ hyphenated,
    getitem (Playlist_dict p) (VStr "slug") = Ok (VStr hyphenated) ∧
    String.length hyphenated = 12 ∧
    String.get 2 hyphenated = Some "-"%char ∧
    ∀ n, String.get n hyphenated ≠ Some "_"%char.
Proof.
  intros p. split; [reflexivity|].
  destruct (Playlist_dict_slug p)
    as (hyphenated & Hget & Hlen & Hhyphen & Hno & _).
  exists hyphenated. split; [exact Hget|]. split; [exact Hlen|].
  split; [apply Hhyphen; reflexivity|exact Hno].
Defined.

(** The profile image is downloaded by the first call, kept by the
    second. *)
Lemma save_channel_branding_idempotent_witness :
  let thumbnails := [(VStr "default", VDict [(VStr "url", VStr "https://img/88.jpg")])] in
  let w := channel_cached thumbnails assets_empty in
  let first := save_channel_branding ["channels"] (VStr "C1") false w in
  first.1 = Ok tt ∧
  length (trace first.2) = 3 ∧
  save_channel_branding ["channels"] (VStr "C1") true first.2
  = (Ok tt,
     World (cache first.2) (remote first.2) (fs first.2)
       (trace first.2 ++ [EvMkdir ["channels"; "C1"]])).
Proof.
  intros thumbnails w first.
  assert (first.1 = Ok tt) as Hout by (vm_compute; reflexivity).
  split; [exact Hout|]. split; [vm_compute; reflexivity|].
  apply (save_channel_branding_idempotent (Ext := Scripted) ["channels"] "C1"
           false true w first.2).
  rewrite <- Hout. exact (surjective_pairing first).
Defined.

(** Two playlists answered: the first is the one. *)
Lemma answered_lookup_returns_first_item_witness :
  let w := start [page [playlist_resource "P" "C1"; playlist_resource "Q" "C1"]
                    None] in
  call getPlaylist 0 (VStr "P") w
  = (Ok (playlist_resource "P" "C1"),
     @World Scripted {["playlist_P" := playlist_resource "P" "C1"]} [] ∅
       [EvRequest (playlist_request (VStr "P"));
        EvSave "playlist_P" (playlist_resource "P" "C1")]).
Proof.
  intros w.
  apply (answered_lookup_returns_first_item (Ext := Scripted) getPlaylist 0
           (VStr "P") w
           {| status_code := 200;
              json_body :=
                Some (VDict [(VStr "items",
                              VList [playlist_resource "P" "C1";
                                     playlist_resource "Q" "C1"])]) |}
           [(VStr "items", VList [playlist_resource "P" "C1";
                                  playlist_resource "Q" "C1"])]
           (playlist_resource "P" "C1") [playlist_resource "Q" "C1"] []);
    done.
Defined.

Lemma Playlist_from_id_fields_witness :
  let w := start [page [playlist_resource "P" "C1"] None] in
  ∃ p w', Playlist_from_id (VStr "P") w = (Ok p, w') ∧
          playlist_id p = VStr "P" ∧
          title p = VStr "Playlist P" ∧
          creator_id p = VStr "C1" ∧
          slug p = "Playlist P".
Proof.
  intros w.
  destruct (Playlist_from_id (VStr "P") w) as [[p| |] w'] eqn:Hrun;
    pose proof Hrun as Hval; vm_compute in Hval; try discriminate.
  injection Hval as <- <-.
  destruct (Playlist_from_id_fields (Ext := Scripted) (VStr "P") w _ _ Hrun)
    as (pj & _ & Hid & _).
  eexists _, _. split; [reflexivity|]. split; [exact Hid|]. by repeat split.
Defined.

(** With the flag set, the profile image is fetched and no banner. *)
Lemma save_channel_branding_writes_profile_only_witness :
  let thumbnails := [(VStr "default", VDict [(VStr "url", VStr "https://img/88.jpg")])] in
  let w := channel_cached thumbnails assets_empty in
  let r := save_channel_branding ["channels"] (VStr "C1") true w in
  r.1 = Ok tt ∧
  fs r.2 !! ["channels"; "C1"; "banner.jpg"] = None ∧
  fs r.2 !! ["channels"] = Some Dir ∧
  save_channel_branding ["channels"] (VStr "C1") false w = r.
Proof.
  intros thumbnails w r.
  destruct (save_channel_branding_writes_profile_only (Ext := Scripted)
              ["channels"] "C1" true w r.1 r.2 (surjective_pairing r))
    as (Hframe & Hbanner & Hflag).
  split; [reflexivity|].
  split; [etrans; [exact Hbanner|reflexivity]|].
  split.
  - etrans; [apply Hframe; intros E; vm_compute in E; discriminate|].
    reflexivity.
  - rewrite (surjective_pairing r). exact Hflag.
Defined.
